(** * traders.fsm: a shallow embedding of the finite state machine engine

    The engine of [traders/fsm.py] is three Python classes: [State] (an
    abstract base class), [Transition] and [FiniteStateMachine] (itself a
    [State]).  States are mutable Python objects that the engine compares
    with [==]; neither [State] nor any class of the repository defines
    [__eq__], so that comparison is object identity.  The embedding
    therefore keeps an explicit heap of objects addressed by references,
    and threads it through every method that can run consumer code.

    What the embedding fixes:
    - a state's [run] method and a transition's update function are consumer
      code: functions from the heap to a new heap, which may also raise;
    - a state's [events] property only reads: it returns its tuple and
      leaves the heap as it is;
    - the attributes of a [Transition] are assigned in [__init__] and never
      again, so a machine's list holds the transitions themselves;
    - the order in which a [set] is iterated is left open;
    - [run], [events] and [__str__] recurse through nested machines and
      [run] loops without bound, so each takes a bound (fuel) and says when
      it is reached. *)

From stdpp Require Import base option list relations gmap strings pretty.

(** ** Python values and objects *)

(** The address of a Python object, what [id(x)] returns. *)
Definition ref := positive.

(** The values the engine handles: event tokens are usually strings, states
    are references to objects, update functions are named functions. *)
Inductive value : Type :=
  | VNone
  | VInt (z : Z)
  | VStr (s : string)
  | VRef (r : ref)
  | VFun (f : string).

#[global] Instance value_eq_dec : EqDecision value.
Proof. solve_decision. Defined.

(** Python's [a == b].  Strings and integers compare by value; objects of
    classes without [__eq__] and functions compare by identity; values of
    different kinds are unequal. *)
Definition py_eq (a b : value) : bool :=
  match a, b with
  | VNone, VNone => true
  | VInt x, VInt y => bool_decide (x = y)
  | VStr x, VStr y => bool_decide (x = y)
  | VRef x, VRef y => bool_decide (x = y)
  | VFun x, VFun y => bool_decide (x = y)
  | _, _ => false
  end.

(** [v is None]. *)
Definition is_None (v : value) : bool :=
  match v with
  | VNone => true
  | _ => false
  end.

(** [callable(v)]: of the values above only functions are callable (no class
    of the repository defines [__call__]). *)
Definition callable (v : value) : bool :=
  match v with
  | VFun _ => true
  | _ => false
  end.

(** The line feed of ['\n']. *)
Definition nl : string := String (Ascii.ascii_of_nat 10) "".

(** The exceptions that can leave the engine.  [TypeError] carries the name
    of the rejected argument (the formatted class names of the message are
    left out), [AttributeError] the missing attribute, [Exception] stands
    for whatever consumer code raises. *)
Inductive exn : Type :=
  | TypeError (what : string)
  | AttributeError (attr : string)
  | Exception (msg : string).

(** The outcome of running Python code with a bound on the recursion and
    iteration depth: a result, a raised exception, or the bound reached. *)
Inductive res (A : Type) : Type :=
  | Ret (a : A)
  | Raise (e : exn)
  | OutOfFuel.
Arguments Ret {A} a.
Arguments Raise {A} e.
Arguments OutOfFuel {A}.

#[global] Instance exn_eq_dec : EqDecision exn.
Proof. solve_decision. Defined.

#[global] Instance res_eq_dec {A : Type} `{EqDecision A} : EqDecision (res A).
Proof. solve_decision. Defined.

#[global] Instance res_ret : MRet res := λ A a, Ret a.
#[global] Instance res_bind : MBind res := λ A B f m,
  match m with
  | Ret a => f a
  | Raise e => Raise e
  | OutOfFuel => OutOfFuel
  end.

(** The attributes [Transition.__init__] stores; the class gives read-only
    properties [current_state], [event] and [next_state] over them and
    nothing assigns them again. *)
Record Transition : Type := mkTransition {
  current_state : value;
  event : value;
  next_state : value;
  _update : value
}.

#[global] Instance Transition_eq_dec : EqDecision Transition.
Proof. solve_decision. Defined.

(** Heap objects: an instance of a consumer subclass of [State] (its class
    name and its attribute dictionary, [name] included), an instance of
    [FiniteStateMachine] (also a [State]), or an instance of [Transition]. *)
Inductive object : Type :=
  | OState (cls : string) (attrs : gmap string value)
  | OFsm (name : value) (start_state : value) (_transitions : list Transition)
  | OTransition (t : Transition).

Abbreviation heap := (gmap ref object).

(** Consumer code: for every subclass of [State] its [events] property and
    its [run] method, and the functions that can be passed as [update]. *)
Record program : Type := mkProgram {
  cls_events : string → heap → ref → list value;
  cls_run : string → heap → ref → res (heap * value);
  fn_call : string → heap → list value → res heap
}.

(** The order in which CPython iterates over [set(xs)]: each distinct element
    once, in an order fixed by the hashes (addresses) of the elements. *)
Record set_order : Type := mkSetOrder {
  set_iter :> list value → list value;
  set_iter_NoDup : ∀ l, NoDup (set_iter l);
  set_iter_elem : ∀ l x, x ∈ set_iter l ↔ x ∈ l
}.

(** One such order: first occurrence first. *)
Program Definition insertion_order : set_order :=
  {| set_iter := λ l, reverse (remove_dups (reverse l)) |}.
Next Obligation.
  intros l. rewrite reverse_Permutation. apply NoDup_remove_dups.
Qed.
Next Obligation.
  intros l x. by rewrite elem_of_reverse, elem_of_remove_dups, elem_of_reverse.
Qed.

(** Another one: last occurrence first. *)
Program Definition reverse_order : set_order :=
  {| set_iter := λ l, remove_dups (reverse l) |}.
Next Obligation. intros l. apply NoDup_remove_dups. Qed.
Next Obligation.
  intros l x. by rewrite elem_of_remove_dups, elem_of_reverse.
Qed.

(** [isinstance(v, State)] and [isinstance(v, Transition)]. *)
Definition isinstance_State (h : heap) (v : value) : bool :=
  match v with
  | VRef r =>
      match h !! r with
      | Some (OState _ _) | Some (OFsm _ _ _) => true
      | _ => false
      end
  | _ => false
  end.

Definition isinstance_Transition (h : heap) (v : value) : bool :=
  match v with
  | VRef r =>
      match h !! r with
      | Some (OTransition _) => true
      | _ => false
      end
  | _ => false
  end.

(** ** class Transition *)

(** [Transition(current_state, event, next_state, update)]: the three checks
    of [__init__] in their order, then the new object. *)
Definition Transition_init (h : heap) (cs ev ns upd : value)
  : res (heap * value) :=
  if negb (isinstance_State h cs) then Raise (TypeError "current_state")
  else if negb (isinstance_State h ns) then Raise (TypeError "next_state")
  else if negb (is_None upd) && negb (callable upd)
  then Raise (TypeError "update")
  else
    let r := fresh (dom h) in
    Ret (<[r := OTransition (mkTransition cs ev ns upd)]> h, VRef r).

(** [t.match(current_state, event)]. *)
Definition Transition_match (t : Transition) (state ev : value) : bool :=
  if py_eq (current_state t) state && py_eq (event t) ev then true
  else false.

Section Engine.

Variable prog : program.
Variable order : set_order.

(** [t.apply()]: call [update] unless it is [None], return [next_state]. *)
Definition Transition_apply (t : Transition) (h : heap)
  : res (heap * value) :=
  match _update t with
  | VNone => Ret (h, next_state t)
  | VFun f =>
      h' ← fn_call prog f h [current_state t; event t; next_state t];
      Ret (h', next_state t)
  | _ => Raise (TypeError "update is not callable")
  end.

(** ** class FiniteStateMachine *)

(** [FiniteStateMachine(name, start_state)]: nothing is checked. *)
Definition FiniteStateMachine_init (h : heap) (name start : value)
  : heap * value :=
  let r := fresh (dom h) in
  (<[r := OFsm name start []]> h, VRef r).

(** [self.add(transition)]: the check, then [append]. *)
Definition FiniteStateMachine_add (h : heap) (self : ref) (tr : value)
  : res heap :=
  if negb (isinstance_Transition h tr) then Raise (TypeError "transition")
  else
    match tr, h !! self with
    | VRef r, Some (OFsm name start ts) =>
        match h !! r with
        | Some (OTransition t) =>
            Ret (<[self := OFsm name start (ts ++ [t])]> h)
        | _ => Raise (TypeError "transition")
        end
    | _, _ => Raise (AttributeError "_transitions")
    end.

(** [next((t for t in transitions if t.match(state, event)), None)]. *)
Definition first_match (ts : list Transition) (state ev : value)
  : option Transition :=
  find (λ t, Transition_match t state ev) ts.

(** [self.transition(state, event)]. *)
Definition FiniteStateMachine_transition (h : heap) (self : ref)
    (state ev : value) : res (option Transition) :=
  match h !! self with
  | Some (OFsm _ _ ts) => Ret (first_match ts state ev)
  | _ => Raise (AttributeError "_transitions")
  end.

(** The [while True] loop of [run], [n] iterations at most; [run_state]
    is what [current_state.run()] does. *)
Fixpoint run_loop (run_state : heap → value → res (heap * value))
    (n : nat) (h : heap) (self : ref) (cur : value)
  : res (heap * value) :=
  match n with
  | 0 => OutOfFuel
  | S n' =>
      '(h1, ev) ← run_state h cur;
      tr ← FiniteStateMachine_transition h1 self cur ev;
      match tr with
      | None => Ret (h1, ev)
      | Some t =>
          '(h2, nxt) ← Transition_apply t h1;
          run_loop run_state n' h2 self nxt
      end
  end.

(** [v.run()], dispatched on the class of [v]: the consumer's method for a
    consumer state, [FiniteStateMachine.run] for a machine. *)
Fixpoint State_run (fuel : nat) (h : heap) (v : value)
  : res (heap * value) :=
  match fuel with
  | 0 => OutOfFuel
  | S f =>
      match v with
      | VRef r =>
          match h !! r with
          | Some (OState c _) => cls_run prog c h r
          | Some (OFsm _ start _) => run_loop (State_run f) f h r start
          | _ => Raise (AttributeError "run")
          end
      | _ => Raise (AttributeError "run")
      end
  end.

(** [self.run()] for a machine at [self]. *)
Definition FiniteStateMachine_run (fuel : nat) (h : heap) (self : ref)
  : res (heap * value) :=
  State_run fuel h (VRef self).

(** The body of the [events] property: the states, then for each state
    the declared events that no transition consumes. *)
Definition collected_states (start : value) (ts : list Transition)
  : list value :=
  order (start :: (current_state <$> ts) ++ (next_state <$> ts)).

Definition unconsumed (ts : list Transition) (state : value)
    (evs : list value) : list value :=
  filter (λ ev, first_match ts state ev = None) evs.

Definition events_body (state_events : value → res (list value))
    (start : value) (ts : list Transition) : res (list value) :=
  evss ← mapM (λ state, evs ← state_events state;
                        Ret (unconsumed ts state evs))
              (collected_states start ts);
  Ret (concat evss).

(** [v.events], dispatched on the class of [v]. *)
Fixpoint State_events (fuel : nat) (h : heap) (v : value)
  : res (list value) :=
  match fuel with
  | 0 => OutOfFuel
  | S f =>
      match v with
      | VRef r =>
          match h !! r with
          | Some (OState c _) => Ret (cls_events prog c h r)
          | Some (OFsm _ start ts) => events_body (State_events f h) start ts
          | _ => Raise (AttributeError "events")
          end
      | _ => Raise (AttributeError "events")
      end
  end.

Definition FiniteStateMachine_events (fuel : nat) (h : heap) (self : ref)
  : res (list value) :=
  State_events fuel h (VRef self).

(** ** Diagnostic strings *)

(** [v.name] for an object. *)
Definition getattr_name (h : heap) (v : value) : res value :=
  match v with
  | VRef r =>
      match h !! r with
      | Some (OState _ attrs) =>
          match attrs !! "name" with
          | Some n => Ret n
          | None => Raise (AttributeError "name")
          end
      | Some (OFsm name _ _) => Ret name
      | _ => Raise (AttributeError "name")
      end
  | _ => Raise (AttributeError "name")
  end.

(** [State.__str__]: [return self.name]. *)
Definition State_str (h : heap) (out : list string) (self : ref)
  : res (list string * value) :=
  n ← getattr_name h (VRef self); Ret (out, n).

(** [Transition.__str__]; [str_] is the builtin [str], which can print
    (a machine's [__str__] does) and so threads the standard output. *)
Definition Transition_str
    (str_ : list string → value → res (list string * string))
    (h : heap) (out : list string) (t : Transition)
  : res (list string * value) :=
  cn ← getattr_name h (current_state t);
  '(out1, a) ← str_ out cn;
  '(out2, b) ← str_ out1 (event t);
  nn ← getattr_name h (next_state t);
  '(out3, c) ← str_ out2 nn;
  Ret (out3, VStr ("(" +:+ a +:+ ", " +:+ b +:+ ") -> " +:+ c)).

(** The two [for] loops of [FiniteStateMachine.__str__]: each appends
    one indented line to the text. *)
Fixpoint render_lines {A : Type}
    (item : list string → A → res (list string * string))
    (out : list string) (text : string) (xs : list A)
  : res (list string * string) :=
  match xs with
  | [] => Ret (out, text)
  | x :: xs' =>
      '(out', s) ← item out x;
      render_lines item out' (text +:+ "    " +:+ s +:+ nl) xs'
  end.

(** [FiniteStateMachine.__str__]: builds the text, prints it, and falls
    off the end of the function, so that the result is [None]. *)
Definition FiniteStateMachine_str
    (str_ : list string → value → res (list string * string))
    (self_events : res (list value))
    (h : heap) (out : list string) (self : ref)
  : res (list string * value) :=
  match h !! self with
  | Some (OFsm name start ts) =>
      '(out1, n) ← str_ out name;
      let text := "FSM: " +:+ n +:+ nl in
      '(out2, s) ← str_ out1 start;
      let text := text +:+ nl +:+ "  Start state: " +:+ s +:+ nl in
      let text := text +:+ nl +:+ "  Transitions:" +:+ nl in
      '(out3, text) ←
        render_lines
          (λ o t, '(o', v) ← Transition_str str_ h o t;
                  match v with
                  | VStr s => Ret (o', s)
                  | _ => Raise (TypeError "__str__ returned non-string")
                  end)
          out2 text ts;
      let text := text +:+ nl +:+ "  Events:" +:+ nl in
      evs ← self_events;
      '(out4, text) ← render_lines str_ out3 text evs;
      Ret (out4 ++ [text +:+ nl], VNone)
  | _ => Raise (AttributeError "name")
  end.

(** The builtin [str(v)]: the text of a primitive value (for a function,
    less the address that CPython prints), and for an object the result of
    its class's [__str__], which must be a string. *)
Fixpoint py_str (fuel : nat) (h : heap) (out : list string) (v : value)
  : res (list string * string) :=
  match fuel with
  | 0 => OutOfFuel
  | S f =>
      match v with
      | VNone => Ret (out, "None")
      | VInt z => Ret (out, pretty z)
      | VStr s => Ret (out, s)
      | VFun g => Ret (out, "<function " +:+ g +:+ ">")
      | VRef r =>
          '(out', result) ←
            match h !! r with
            | Some (OState _ _) => State_str h out r
            | Some (OFsm _ _ _) =>
                FiniteStateMachine_str (py_str f h)
                  (State_events f h (VRef r)) h out r
            | Some (OTransition t) => Transition_str (py_str f h) h out t
            | None => Raise (AttributeError "__str__")
            end;
          match result with
          | VStr s => Ret (out', s)
          | _ => Raise (TypeError "__str__ returned non-string")
          end
      end
  end.

(** [self.__str__()] called on a machine. *)
Definition FiniteStateMachine___str__ (fuel : nat) (h : heap)
    (out : list string) (self : ref) : res (list string * value) :=
  FiniteStateMachine_str (py_str fuel h)
    (State_events fuel h (VRef self)) h out self.

End Engine.

(** ** The states of the test suite *)

(** [tests/test_fsm.py]: [EndState], [StartState], [CountingState] and
    [LimitingState], and the [update] function of [test_counting_fsm].  The
    tests store integers in [value] and [limit]; arithmetic and comparison
    on anything else is not modelled and raises here. *)
Module TestDoubles.

Definition getattr (h : heap) (v : value) (a : string) : res value :=
  match v with
  | VRef r =>
      match h !! r with
      | Some (OState _ attrs) =>
          match attrs !! a with
          | Some x => Ret x
          | None => Raise (AttributeError a)
          end
      | _ => Raise (AttributeError a)
      end
  | _ => Raise (AttributeError a)
  end.

Definition setattr (h : heap) (v : value) (a : string) (x : value)
  : res heap :=
  match v with
  | VRef r =>
      match h !! r with
      | Some (OState c attrs) => Ret (<[r := OState c (<[a := x]> attrs)]> h)
      | _ => Raise (AttributeError a)
      end
  | _ => Raise (AttributeError a)
  end.

Definition events (cls : string) (h : heap) (self : ref) : list value :=
  if decide (cls = "EndState") then [VStr "ended"]
  else if decide (cls = "StartState") then [VStr "started"]
  else if decide (cls = "CountingState") then [VStr "counted"]
  else if decide (cls = "LimitingState") then [VStr "over"; VStr "under"]
  else [].

Definition run (cls : string) (h : heap) (self : ref)
  : res (heap * value) :=
  if decide (cls = "EndState") then Ret (h, VStr "ended")
  else if decide (cls = "StartState") then Ret (h, VStr "started")
  else if decide (cls = "CountingState") then
    v ← getattr h (VRef self) "value";
    match v with
    | VInt n =>
        h' ← setattr h (VRef self) "value" (VInt (n + 1));
        Ret (h', VStr "counted")
    | _ => Raise (TypeError "+=")
    end
  else if decide (cls = "LimitingState") then
    v ← getattr h (VRef self) "value";
    l ← getattr h (VRef self) "limit";
    match v, l with
    | VInt n, VInt m =>
        if bool_decide (n > m)%Z then Ret (h, VStr "over")
        else Ret (h, VStr "under")
    | _, _ => Raise (TypeError ">")
    end
  else Raise (AttributeError "run").

(** [def update(counting, event, limiting):
       limiting.value = counting.value] *)
Definition call (f : string) (h : heap) (args : list value) : res heap :=
  if decide (f = "update") then
    match args with
    | [counting; _; limiting] =>
        v ← getattr h counting "value";
        setattr h limiting "value" v
    | _ => Raise (TypeError "update")
    end
  else Raise (TypeError "call").

Definition prog : program :=
  {| cls_events := events; cls_run := run; fn_call := call |}.

(** [cls(...)] for a consumer state: a new object with the attributes
    that its [__init__] assigns. *)
Definition new (h : heap) (cls : string) (attrs : list (string * value))
  : heap * value :=
  let r := fresh (dom h) in
  (<[r := OState cls (list_to_map attrs)]> h, VRef r).

Definition StartState (h : heap) : heap * value :=
  new h "StartState" [("name", VStr "Starting")].

Definition EndState (h : heap) : heap * value :=
  new h "EndState" [("name", VStr "Ending")].

Definition CountingState (h : heap) : heap * value :=
  new h "CountingState" [("name", VStr "Counting"); ("value", VInt 0)].

Definition LimitingState (h : heap) (v limit : value) : heap * value :=
  new h "LimitingState"
    [("name", VStr "Limiting"); ("value", v); ("limit", limit)].

(** The set-up of [test_counting_fsm]: the heap, the counting state and
    the machine. *)
Definition counting_fsm : res (heap * value * ref) :=
  let '(h, counting) := CountingState ∅ in
  v ← getattr h counting "value";
  let '(h, limiting) := LimitingState h v (VInt 10) in
  let '(h, m) := FiniteStateMachine_init h (VStr "Counting to 10") counting in
  match m with
  | VRef fsm =>
      '(h, t1) ← Transition_init h counting (VStr "counted") limiting
                   (VFun "update");
      h ← FiniteStateMachine_add h fsm t1;
      '(h, t2) ← Transition_init h limiting (VStr "under") counting VNone;
      h ← FiniteStateMachine_add h fsm t2;
      Ret (h, counting, fsm)
  | _ => Raise (TypeError "FiniteStateMachine")
  end.

(** The heap that the set-up leaves: the counting state at 1, the
    limiting state at 2, the machine at 3. *)
Definition counting_heap : heap :=
  match counting_fsm with
  | Ret (h, _, _) => h
  | _ => ∅
  end.

Definition counting_transitions : list Transition :=
  [mkTransition (VRef 1%positive) (VStr "counted") (VRef 2%positive)
     (VFun "update");
   mkTransition (VRef 2%positive) (VStr "under") (VRef 1%positive) VNone].

(** The heap after [counting_fsm.run()]. *)
Definition counted_heap : heap :=
  match FiniteStateMachine_run prog 23 counting_heap 3%positive with
  | Ret (h, _) => h
  | _ => ∅
  end.

(** The set-up of [test_events]: a machine without transitions, at 2,
    over a start state at 1. *)
Definition start_heap : heap :=
  let '(h, start) := StartState ∅ in
  (FiniteStateMachine_init h (VStr "Start machine") start).1.

(** The set-up of [test_match]: a start state at 1, an end state at 2,
    and, for comparison, a second start state at 3. *)
Definition match_heap : heap :=
  let '(h, _) := StartState ∅ in
  let '(h, _) := EndState h in
  (StartState h).1.

(** The transition of [test_match] and the heap that holds it, at 4. *)
Definition start_transition : Transition :=
  mkTransition (VRef 1%positive) (VStr "started") (VRef 2%positive) VNone.

Definition matched_heap : heap :=
  <[4%positive := OTransition start_transition]> match_heap.

(** A machine, at 4, over the start state and the end state, whose only
    transition consumes an event that neither declares. *)
Definition two_state_heap : heap :=
  <[4%positive := OFsm (VStr "Two states") (VRef 1%positive)
      [mkTransition (VRef 2%positive) (VStr "restart") (VRef 1%positive)
         VNone]]> match_heap.

(** A machine, at 4, whose only transition leads from the start state back
    to it on the one event it produces. *)
Definition looping_heap : heap :=
  <[4%positive := OFsm (VStr "Loop") (VRef 1%positive)
      [mkTransition (VRef 1%positive) (VStr "started") (VRef 1%positive)
         VNone]]> match_heap.

(** The heap of [test_counting_fsm] with any counter [c], any value [v] of
    the limiting state and any limit [l]. *)
Definition counting_heap_at (c v l : Z) : heap :=
  <[1%positive := OState "CountingState"
      (list_to_map [("name", VStr "Counting"); ("value", VInt c)])]>
  (<[2%positive := OState "LimitingState"
      (list_to_map [("name", VStr "Limiting"); ("value", VInt v);
                    ("limit", VInt l)])]>
  (<[3%positive := OFsm (VStr "Counting to 10") (VRef 1%positive)
      counting_transitions]>
  (<[4%positive := OTransition
      (mkTransition (VRef 1%positive) (VStr "counted") (VRef 2%positive)
         (VFun "update"))]>
  (<[5%positive := OTransition
      (mkTransition (VRef 2%positive) (VStr "under") (VRef 1%positive)
         VNone)]> ∅)))).

(** The counting machine when the limiting state was built with [None] as
    its limit, before the first turn and after it. *)
Definition unlimited_heap : heap :=
  <[2%positive := OState "LimitingState"
      (list_to_map [("name", VStr "Limiting"); ("value", VInt 0);
                    ("limit", VNone)])]> counting_heap.

Definition unlimited_heap_counted : heap :=
  <[1%positive := OState "CountingState"
      (list_to_map [("name", VStr "Counting"); ("value", VInt 1)])]>
    unlimited_heap.

Definition unlimited_heap_turned : heap :=
  <[2%positive := OState "LimitingState"
      (list_to_map [("name", VStr "Limiting"); ("value", VInt 1);
                    ("limit", VNone)])]> unlimited_heap_counted.

(** The counting machine and, at 6, a transition that would take ['over']
    back to the counting state. *)
Definition closing_heap : heap :=
  <[6%positive := OTransition
      (mkTransition (VRef 2%positive) (VStr "over") (VRef 1%positive)
         VNone)]> counting_heap.

(** A start state at 1 and, at 2, a machine with a transition from the
    start state to the machine itself. *)
Definition self_heap : heap :=
  <[2%positive := OFsm (VStr "Self") (VRef 1%positive)
      [mkTransition (VRef 1%positive) (VStr "started") (VRef 2%positive)
         VNone]]> (StartState ∅).1.

End TestDoubles.


(** ** The behaviour that the specification describes *)

(** The iteration of [run] in the specification's words: run the current
    state, look up the transition for the event; without one stop with that
    event, otherwise apply the transition and go on from its next state.
    The list holds the state and event of every transition taken. *)
Inductive iteration (prog : program) (self : ref)
  : heap → value → list (value * value) → heap → value → Prop :=
  | iteration_stop h cur h1 ev :
      (∃ fuel, State_run prog fuel h cur = Ret (h1, ev)) →
      FiniteStateMachine_transition h1 self cur ev = Ret None →
      iteration prog self h cur [] h1 ev
  | iteration_step h cur h1 ev t h2 nxt taken h' ev' :
      (∃ fuel, State_run prog fuel h cur = Ret (h1, ev)) →
      FiniteStateMachine_transition h1 self cur ev = Ret (Some t) →
      Transition_apply prog t h1 = Ret (h2, nxt) →
      nxt = next_state t →
      iteration prog self h2 nxt taken h' ev' →
      iteration prog self h cur ((cur, ev) :: taken) h' ev'.

(** Consumer code that writes to consumer state objects only: every other
    object of the heap, machines and transitions, is left as it was. *)
Definition writes_states_only (h h' : heap) : Prop :=
  ∀ r o, h !! r = Some o → (∀ c attrs, o ≠ OState c attrs) → h' !! r = Some o.

(** The derived events in the specification's words: the start state and
    the current and next state of every transition, each once; then of
    every such state the declared events for which the machine's lookup
    finds no transition. *)
Definition derived_events (prog : program) (order : set_order) (h : heap)
    (self : ref) (start : value) (ts : list Transition) (evs : list value)
  : Prop :=
  ∃ (states : list value) (declared : list (list value)),
    NoDup states ∧
    (∀ s, s ∈ states ↔
          s = start ∨ ∃ t, t ∈ ts ∧ (s = current_state t ∨ s = next_state t)) ∧
    Forall2 (λ s d, ∃ fuel, State_events prog order fuel h s = Ret d)
      states declared ∧
    evs = concat (zip_with
            (λ s d, filter (λ e, FiniteStateMachine_transition h self s e
                                 = Ret None) d)
            states declared).

(** ** Notions for the further properties *)

(** One turn of the loop of [run] that takes a transition: from a heap
    and a current state to the heap after the update and the next state. *)
Definition turn (prog : program) (self : ref) (c c' : heap * value) : Prop :=
  ∃ fuel h1 ev t,
    State_run prog fuel c.1 c.2 = Ret (h1, ev) ∧
    FiniteStateMachine_transition h1 self c.2 ev = Ret (Some t) ∧
    Transition_apply prog t h1 = Ret c'.

(** Consumer code that keeps every object in its place and in its class: a
    consumer state stays an instance of its class, whatever happens to its
    attributes, and machines and transitions stay as they are. *)
Definition keeps_classes (h h' : heap) : Prop :=
  ∀ r o, h !! r = Some o →
    match o with
    | OState c _ => ∃ attrs', h' !! r = Some (OState c attrs')
    | _ => h' !! r = Some o
    end.

(** * Properties *)

(** ** Values and the error monad *)

Lemma py_eq_spec (a b : value) : py_eq a b = true ↔ a = b.
Proof.
  destruct a, b; simpl; rewrite ?bool_decide_eq_true;
    split; intros H; try congruence; try discriminate.
Qed.

Lemma py_eq_refl (a : value) : py_eq a a = true.
Proof. by apply py_eq_spec. Qed.

Lemma py_eq_false (a b : value) : py_eq a b = false ↔ a ≠ b.
Proof.
  rewrite <-not_true_iff_false, py_eq_spec. done.
Qed.

Lemma res_bind_Ret {A B : Type} (m : res A) (f : A → res B) (b : B) :
  m ≫= f = Ret b ↔ ∃ a, m = Ret a ∧ f a = Ret b.
Proof.
  destruct m as [a| |]; simpl; split.
  - eauto.
  - by intros (a' & [= ->] & ?).
  - done.
  - by intros (? & ? & ?).
  - done.
  - by intros (? & ? & ?).
Qed.

(** Destructs the binds of a hypothesis [_ = Ret _]. *)
Ltac inv_ret H :=
  repeat match type of H with
  | _ ≫= _ = Ret _ =>
      let x := fresh "x" in
      let Hx := fresh "Hx" in
      apply res_bind_Ret in H as (x & Hx & H)
  | (let '(_, _) := ?p in _) = Ret _ => destruct p; simpl in H
  | Ret _ = Ret _ => injection H as H
  | Raise _ = Ret _ => discriminate H
  | OutOfFuel = Ret _ => discriminate H
  end.

(** ** Transition *)

Lemma Transition_match_spec (t : Transition) (state ev : value) :
  Transition_match t state ev = true ↔
  state = current_state t ∧ ev = event t.
Proof.
  unfold Transition_match.
  destruct (py_eq (current_state t) state) eqn:Hs;
    destruct (py_eq (event t) ev) eqn:He; simpl.
  - apply py_eq_spec in Hs, He. by split.
  - apply py_eq_false in He. split; [done | intros [_ ->]; done].
  - apply py_eq_false in Hs. split; [done | intros [-> _]; done].
  - apply py_eq_false in Hs. split; [done | intros [-> _]; done].
Qed.

Lemma Transition_match_false (t : Transition) (state ev : value) :
  Transition_match t state ev = false ↔
  state ≠ current_state t ∨ ev ≠ event t.
Proof.
  rewrite <-not_true_iff_false, Transition_match_spec.
  split.
  - intros H. destruct (decide (state = current_state t)); [|by left].
    right. intros ?. by apply H.
  - intros [H | H] [? ?]; done.
Qed.

Lemma isinstance_State_ref (h : heap) (v : value) :
  isinstance_State h v = true →
  ∃ r o, v = VRef r ∧ h !! r = Some o ∧ ∀ t, o ≠ OTransition t.
Proof.
  destruct v as [| | |r|]; simpl; try done.
  destruct (h !! r) as [[]|] eqn:Hr; try done; eauto 6.
Qed.

(** What a successful construction gives: a new object, holding the four
    arguments as they were passed, in a heap otherwise unchanged. *)
Lemma Transition_init_Ret (h h' : heap) (cs ev ns upd v : value) :
  Transition_init h cs ev ns upd = Ret (h', v) →
  ∃ r, v = VRef r ∧ h !! r = None ∧
       h' = <[r := OTransition (mkTransition cs ev ns upd)]> h ∧
       isinstance_State h cs = true ∧ isinstance_State h ns = true ∧
       (upd = VNone ∨ callable upd = true).
Proof.
  unfold Transition_init.
  destruct (isinstance_State h cs) eqn:Hcs; simpl; [|done].
  destruct (isinstance_State h ns) eqn:Hns; simpl; [|done].
  destruct (is_None upd) eqn:Hn; simpl.
  - intros [= <- <-]. exists (fresh (dom h)). split_and!; try done.
    + apply not_elem_of_dom, is_fresh.
    + left. by destruct upd.
  - destruct (callable upd) eqn:Hc; simpl; [|done].
    intros [= <- <-]. exists (fresh (dom h)). split_and!; try done.
    + apply not_elem_of_dom, is_fresh.
    + by right.
Qed.

(** C4: [match] compares the state by identity and the event by value. *)
Theorem Transition_match_identity
    (h h' : heap) (cs ev ns upd : value) (tr : ref) (t : Transition) :
  Transition_init h cs ev ns upd = Ret (h', VRef tr) →
  h' !! tr = Some (OTransition t) →
  ∃ r : ref,
    cs = VRef r ∧
    (∀ s e, Transition_match t s e = true ↔ s = VRef r ∧ py_eq ev e = true) ∧
    (∀ r' e, r' ≠ r → h' !! r' = h' !! r →
             Transition_match t (VRef r') e = false) ∧
    (∀ e, py_eq ev e = false → Transition_match t (VRef r) e = false).
Proof.
  intros Hinit Ht.
  apply Transition_init_Ret in Hinit as (r0 & [= <-] & _ & -> & Hcs & _).
  rewrite lookup_insert_eq in Ht. injection Ht as <-.
  apply isinstance_State_ref in Hcs as (r & o & -> & _).
  exists r. split; [done|]. split_and!.
  - intros s e. rewrite Transition_match_spec, py_eq_spec. simpl.
    split; intros [-> ->]; done.
  - intros r' e Hne _. apply Transition_match_false. left. simpl. congruence.
  - intros e He. apply py_eq_false in He.
    apply Transition_match_false. right. simpl. congruence.
Qed.

(** C8: without an update function, [apply] returns [next_state] and the
    heap, hence every state's data, is what it was. *)
Theorem Transition_apply_no_update
    (prog : program) (h h' : heap) (cs ev ns : value) (tr : ref)
    (t : Transition) (h2 : heap) :
  Transition_init h cs ev ns VNone = Ret (h', VRef tr) →
  h' !! tr = Some (OTransition t) →
  Transition_apply prog t h2 = Ret (h2, ns).
Proof.
  intros Hinit Ht.
  apply Transition_init_Ret in Hinit as (r0 & [= <-] & _ & -> & _).
  rewrite lookup_insert_eq in Ht. by injection Ht as <-.
Qed.

(** C6: construction raises exactly when one of the three checks fails, the
    event plays no part, and otherwise it succeeds. *)
Theorem Transition_init_raises_iff (h : heap) (cs ev ns upd : value) :
  ((∃ e, Transition_init h cs ev ns upd = Raise e) ↔
     isinstance_State h cs = false ∨ isinstance_State h ns = false ∨
     (upd ≠ VNone ∧ callable upd = false)) ∧
  (∀ e, Transition_init h cs ev ns upd = Raise e → ∃ what, e = TypeError what) ∧
  (∀ ev' e, Transition_init h cs ev ns upd = Raise e ↔
            Transition_init h cs ev' ns upd = Raise e) ∧
  (isinstance_State h cs = true ∧ isinstance_State h ns = true ∧
   (upd = VNone ∨ callable upd = true) ↔
   ∃ r, h !! r = None ∧
        Transition_init h cs ev ns upd =
          Ret (<[r := OTransition (mkTransition cs ev ns upd)]> h, VRef r)).
Proof.
  unfold Transition_init.
  destruct (isinstance_State h cs) eqn:Hcs; simpl;
    [destruct (isinstance_State h ns) eqn:Hns; simpl;
      [destruct (is_None upd) eqn:Hn; simpl;
        [|destruct (callable upd) eqn:Hc; simpl]|]|].
  - assert (upd = VNone) as -> by by destruct upd. split_and!.
    + split; [by intros [? ?] | by intros [?|[?|[? _]]]].
    + done.
    + done.
    + split; [|by auto]. intros _. exists (fresh (dom h)).
      split; [apply not_elem_of_dom, is_fresh | done].
  - assert (upd ≠ VNone) as Hn' by by intros ->. split_and!.
    + split; [by intros [? ?] | by intros [?|[?|[_ ?]]]].
    + done.
    + done.
    + split; [|by auto]. intros _. exists (fresh (dom h)).
      split; [apply not_elem_of_dom, is_fresh | done].
  - assert (upd ≠ VNone) as Hn' by by intros ->. split_and!.
    + split; [auto | eauto].
    + intros e [= <-]. eauto.
    + done.
    + split; [by intros (_ & _ & [?|?]) | by intros (? & _ & ?)].
  - split_and!.
    + split; [auto | eauto].
    + intros e [= <-]. eauto.
    + done.
    + split; [by intros (_ & ? & _) | by intros (? & _ & ?)].
  - split_and!.
    + split; [auto | eauto].
    + intros e [= <-]. eauto.
    + done.
    + split; [by intros (? & _ & _) | by intros (? & _ & ?)].
Qed.

(** ** Looking up a transition *)

Lemma find_Some_first {A : Type} (P : A → bool) (l : list A) (x : A) :
  find P l = Some x ↔
  ∃ l1 l2, l = l1 ++ x :: l2 ∧ P x = true ∧ Forall (λ y, P y = false) l1.
Proof.
  induction l as [|a l IH]; simpl.
  - split; [done|]. intros (l1 & l2 & Hl & _). by destruct l1.
  - destruct (P a) eqn:Ha.
    + split.
      * intros [= <-]. exists [], l. by split_and!.
      * intros (l1 & l2 & Hl & Hx & Hl1). destruct l1 as [|b l1].
        -- by injection Hl as ->.
        -- injection Hl as -> _. apply Forall_cons in Hl1 as [? _]. congruence.
    + rewrite IH. split.
      * intros (l1 & l2 & -> & Hx & Hl1). exists (a :: l1), l2.
        split_and!; [done | done | by constructor].
      * intros (l1 & l2 & Hl & Hx & Hl1). destruct l1 as [|b l1].
        -- injection Hl as -> _. congruence.
        -- injection Hl as -> ->. apply Forall_cons in Hl1 as [_ ?]. eauto.
Qed.

Lemma find_None_all {A : Type} (P : A → bool) (l : list A) :
  find P l = None ↔ Forall (λ y, P y = false) l.
Proof.
  induction l as [|a l IH]; simpl.
  - split; [by constructor | done].
  - destruct (P a) eqn:Ha.
    + split; [done|]. intros [? _]%Forall_cons. congruence.
    + rewrite IH. split; [by constructor | by intros [_ ?]%Forall_cons].
Qed.

Lemma find_app {A : Type} (P : A → bool) (l1 l2 : list A) :
  find P (l1 ++ l2) =
  match find P l1 with
  | Some x => Some x
  | None => find P l2
  end.
Proof.
  induction l1 as [|a l1 IH]; simpl; [done|]. by destruct (P a).
Qed.

(** A transition that comes after one with the same state and event is
    never looked at. *)
Lemma first_match_shadowed (l1 l2 l3 : list Transition) (t1 t2 : Transition)
    (state ev : value) :
  current_state t1 = current_state t2 →
  event t1 = event t2 →
  first_match (l1 ++ t1 :: l2 ++ t2 :: l3) state ev =
  first_match (l1 ++ t1 :: l2 ++ l3) state ev.
Proof.
  intros Hcs Hev. unfold first_match.
  rewrite !find_app. destruct (find _ l1); [done|]. simpl.
  destruct (Transition_match t1 state ev) eqn:H1; [done|].
  rewrite !find_app. destruct (find _ l2); [done|]. simpl.
  assert (Transition_match t2 state ev = false) as ->; [|done].
  apply Transition_match_false. apply Transition_match_false in H1.
  by rewrite <-Hcs, <-Hev.
Qed.

Lemma FiniteStateMachine_add_Ret (h h' : heap) (self : ref) (tr : value) :
  FiniteStateMachine_add h self tr = Ret h' →
  ∃ r t name start ts,
    tr = VRef r ∧ h !! r = Some (OTransition t) ∧
    h !! self = Some (OFsm name start ts) ∧
    h' = <[self := OFsm name start (ts ++ [t])]> h.
Proof.
  unfold FiniteStateMachine_add, isinstance_Transition.
  destruct tr as [| | |r|]; try done.
  destruct (h !! r) as [[| |t]|] eqn:Hr; try done. simpl.
  destruct (h !! self) as [[|name start ts|]|] eqn:Hs; try done.
  intros [= <-]. by exists r, t, name, start, ts.
Qed.

(** C5: the lookup returns the first transition, in the order of the
    [add] calls, whose [match] holds, and [None] when there is none; a
    later transition for the same state and event is never returned. *)
Theorem FiniteStateMachine_transition_first
    (h : heap) (self : ref) (name start : value) (ts : list Transition) :
  h !! self = Some (OFsm name start ts) →
  (∀ state ev t,
     FiniteStateMachine_transition h self state ev = Ret (Some t) ↔
     ∃ l1 l2, ts = l1 ++ t :: l2 ∧ Transition_match t state ev = true ∧
              Forall (λ t', Transition_match t' state ev = false) l1) ∧
  (∀ state ev,
     FiniteStateMachine_transition h self state ev = Ret None ↔
     Forall (λ t', Transition_match t' state ev = false) ts) ∧
  (∀ tr h', FiniteStateMachine_add h self tr = Ret h' →
     ∃ r t, tr = VRef r ∧ h !! r = Some (OTransition t) ∧
            h' !! self = Some (OFsm name start (ts ++ [t]))) ∧
  (∀ l1 l2 l3 t1 t2,
     ts = l1 ++ t1 :: l2 ++ t2 :: l3 →
     current_state t1 = current_state t2 → event t1 = event t2 →
     (∀ state ev,
        FiniteStateMachine_transition h self state ev =
        Ret (first_match (l1 ++ t1 :: l2 ++ l3) state ev)) ∧
     ∃ t, FiniteStateMachine_transition h self (current_state t2) (event t2)
            = Ret (Some t) ∧ t ∈ l1 ++ [t1]).
Proof.
  intros Hself. unfold FiniteStateMachine_transition. rewrite Hself.
  split_and!.
  - intros state ev t. unfold first_match. split.
    + intros [= H]. by apply find_Some_first in H.
    + intros H. f_equal. by apply find_Some_first.
  - intros state ev. unfold first_match. split.
    + intros [= H]. by apply find_None_all in H.
    + intros H. f_equal. by apply find_None_all.
  - intros tr h' (r & t & name' & start' & ts' & -> & Hr & Hs & ->)
      %FiniteStateMachine_add_Ret.
    rewrite Hself in Hs. injection Hs as <- <- <-.
    exists r, t. by rewrite lookup_insert_eq.
  - intros l1 l2 l3 t1 t2 -> Hcs Hev. split.
    + intros state ev. by rewrite first_match_shadowed.
    + unfold first_match. rewrite find_app.
      destruct (find _ l1) as [t|] eqn:Hl1.
      * exists t. split; [done|].
        apply find_Some_first in Hl1 as (la & lb & -> & _).
        rewrite !elem_of_app, elem_of_cons. auto.
      * simpl. rewrite <-Hcs, <-Hev.
        assert (Transition_match t1 (current_state t1) (event t1) = true)
          as -> by by apply Transition_match_spec.
        exists t1. split; [done|]. rewrite elem_of_app, list_elem_of_singleton.
        auto.
Qed.

(** ** The run loop *)

Section RunFacts.

Variable prog : program.

Lemma run_loop_mono (rs rs' : heap → value → res (heap * value))
    (n n' : nat) (h : heap) (self : ref) (cur : value) (x : heap * value) :
  (∀ h v y, rs h v = Ret y → rs' h v = Ret y) →
  n ≤ n' →
  run_loop prog rs n h self cur = Ret x →
  run_loop prog rs' n' h self cur = Ret x.
Proof.
  intros Hrs. revert n' h cur.
  induction n as [|n IH]; intros n' h cur Hle; simpl; [done|].
  destruct n' as [|n']; [lia|]. simpl.
  destruct (rs h cur) as [[h1 ev]| |] eqn:Hr; simpl; try done.
  rewrite (Hrs _ _ _ Hr). simpl.
  destruct (FiniteStateMachine_transition h1 self cur ev)
    as [[t|]| |]; simpl; try done.
  destruct (Transition_apply prog t h1) as [[h2 nxt]| |]; simpl; try done.
  apply IH. lia.
Qed.

Lemma State_run_mono (n n' : nat) (h : heap) (v : value)
    (x : heap * value) :
  n ≤ n' → State_run prog n h v = Ret x → State_run prog n' h v = Ret x.
Proof.
  revert n' h v x.
  induction n as [|n IH]; intros n' h v x Hle; simpl; [done|].
  destruct n' as [|n']; [lia|]. simpl.
  destruct v as [| | |r|]; try done.
  destruct (h !! r) as [[c attrs|name start ts|t]|]; try done.
  apply run_loop_mono; [|lia].
  intros h0 v0 y. apply IH. lia.
Qed.

Lemma run_loop_iteration (f n : nat) (h : heap) (self : ref) (cur : value)
    (h' : heap) (ev : value) :
  run_loop prog (State_run prog f) n h self cur = Ret (h', ev) →
  ∃ taken, iteration prog self h cur taken h' ev.
Proof.
  revert h cur. induction n as [|n IH]; intros h cur; simpl; [done|].
  destruct (State_run prog f h cur) as [[h1 e]| |] eqn:Hr; simpl; try done.
  destruct (FiniteStateMachine_transition h1 self cur e)
    as [[t|]| |] eqn:Ht; simpl; try done.
  - destruct (Transition_apply prog t h1) as [[h2 nxt]| |] eqn:Ha;
      simpl; try done.
    intros (taken & Hit)%IH. exists ((cur, e) :: taken).
    eapply iteration_step; eauto.
    unfold Transition_apply in Ha.
    destruct (_update t); try done.
    + by injection Ha as _ <-.
    + destruct (fn_call _ _ _ _); simpl in Ha; try done.
      by injection Ha as _ <-.
  - intros [= <- <-]. exists []. eapply iteration_stop; eauto.
Qed.

Lemma iteration_run_loop (self : ref) (h : heap) (cur : value)
    (taken : list (value * value)) (h' : heap) (ev : value) :
  iteration prog self h cur taken h' ev →
  ∃ f n, run_loop prog (State_run prog f) n h self cur = Ret (h', ev).
Proof.
  induction 1 as [h cur h1 ev [f Hr] Ht
                 |h cur h1 ev t h2 nxt taken h' ev' [f Hr] Ht Ha Hn _ IH].
  - exists f, 1. simpl. rewrite Hr. simpl. by rewrite Ht.
  - destruct IH as (f' & n & Hl).
    exists (f `max` f'), (S n). simpl.
    rewrite (State_run_mono f (f `max` f') _ _ _ (Nat.le_max_l _ _) Hr).
    simpl. rewrite Ht. simpl. rewrite Ha. simpl.
    eapply run_loop_mono; [| |exact Hl]; [|done].
    intros h0 v0 y. apply State_run_mono. lia.
Qed.

End RunFacts.

(** C1: [run] returns an event exactly when the iteration from
    [start_state] reaches a state and event without transition, and what it
    returns is that event, the first one without a transition. *)
Theorem FiniteStateMachine_run_iteration
    (prog : program) (h : heap) (self : ref) (name start : value)
    (ts : list Transition) (h' : heap) (ev : value) :
  h !! self = Some (OFsm name start ts) →
  (∃ fuel, FiniteStateMachine_run prog fuel h self = Ret (h', ev)) ↔
  (∃ taken, iteration prog self h start taken h' ev).
Proof.
  intros Hself. unfold FiniteStateMachine_run. split.
  - intros [[|f] Hrun]; simpl in Hrun; [done|].
    rewrite Hself in Hrun. by apply run_loop_iteration in Hrun.
  - intros [taken (f & n & Hl)%iteration_run_loop].
    exists (S (f `max` n)). simpl. rewrite Hself.
    eapply run_loop_mono; [| |exact Hl]; [|lia].
    intros h0 v0 y. apply State_run_mono. lia.
Qed.

Lemma Transition_apply_next (prog : program) (t : Transition)
    (h h' : heap) (v : value) :
  Transition_apply prog t h = Ret (h', v) → v = next_state t.
Proof.
  unfold Transition_apply. destruct (_update t); try done.
  - by intros [= _ <-].
  - destruct (fn_call _ _ _ _); simpl; try done. by intros [= _ <-].
Qed.

(** Whatever consumer code preserves, [run] preserves: the engine writes
    nothing to the heap itself. *)
Lemma State_run_invariant (prog : program) (I : heap → Prop) :
  (∀ c h r h' e, I h → cls_run prog c h r = Ret (h', e) → I h') →
  (∀ f h args h', I h → fn_call prog f h args = Ret h' → I h') →
  ∀ fuel h v h' e, I h → State_run prog fuel h v = Ret (h', e) → I h'.
Proof.
  intros Hrun Hcall.
  assert (∀ t h h' v, I h → Transition_apply prog t h = Ret (h', v) → I h')
    as Happly.
  { intros t h h' v Hh. unfold Transition_apply.
    destruct (_update t) as [| | | |f]; try done.
    - by intros [= <- _].
    - destruct (fn_call prog f h _) as [h1| |] eqn:Hf; simpl; try done.
      intros [= <- _]. eauto. }
  induction fuel as [|f IH]; intros h v h' e Hh; simpl; [done|].
  destruct v as [| | |r|]; try done.
  destruct (h !! r) as [[c attrs|name start ts|t]|]; try done.
  - eauto.
  - clear name ts. generalize f at 2. intros n. revert h start Hh.
    induction n as [|n IHn]; intros h cur Hh; simpl; [done|].
    destruct (State_run prog f h cur) as [[h1 e1]| |] eqn:Hr;
      simpl; try done.
    apply IH in Hr; [|done].
    destruct (FiniteStateMachine_transition h1 r cur e1) as [[t|]| |];
      simpl; try done.
    + destruct (Transition_apply prog t h1) as [[h2 nxt]| |] eqn:Ha;
        simpl; try done.
      apply IHn. eauto.
    + by intros [= <- _].
Qed.

(** C10: when the consumer's [run] methods and update functions write to
    consumer state objects only, so does [run]: the machine's name, start
    state and transition list are what they were, and a later run starts
    from the same start state over the same transitions. *)
Theorem FiniteStateMachine_run_frame
    (prog : program) (fuel : nat) (h : heap) (self : ref)
    (name start : value) (ts : list Transition) (h' : heap) (ev : value) :
  (∀ c h0 r h1 e, cls_run prog c h0 r = Ret (h1, e) →
                  writes_states_only h0 h1) →
  (∀ f h0 args h1, fn_call prog f h0 args = Ret h1 →
                   writes_states_only h0 h1) →
  h !! self = Some (OFsm name start ts) →
  FiniteStateMachine_run prog fuel h self = Ret (h', ev) →
  writes_states_only h h' ∧
  h' !! self = Some (OFsm name start ts) ∧
  (∀ state e, FiniteStateMachine_transition h' self state e =
              FiniteStateMachine_transition h self state e) ∧
  (∀ f, FiniteStateMachine_run prog (S f) h' self =
        run_loop prog (State_run prog f) f h' self start).
Proof.
  intros Hrun Hcall Hself Hret.
  assert (writes_states_only h h') as Hframe.
  { intros r o Hr Ho.
    eapply (State_run_invariant prog (λ h0, h0 !! r = Some o));
      [| |exact Hr|exact Hret].
    - intros c h0 r0 h1 e Hr0 Hc. by eapply Hrun.
    - intros f h0 args h1 Hr0 Hc. by eapply Hcall. }
  assert (h' !! self = Some (OFsm name start ts)) as Hself'.
  { by apply Hframe. }
  split_and!; [done | done | |].
  - intros state e. unfold FiniteStateMachine_transition.
    by rewrite Hself, Hself'.
  - intros f. unfold FiniteStateMachine_run. simpl. by rewrite Hself'.
Qed.

(** ** The derived events *)

Lemma mapM_res_Ret {A B : Type} (f : A → res B) (l : list A) (k : list B) :
  mapM f l = Ret k ↔ Forall2 (λ x y, f x = Ret y) l k.
Proof.
  revert k. induction l as [|x l IH]; intros k; simpl.
  - split.
    + intros [= <-]. constructor.
    + intros ->%Forall2_nil_inv_l. done.
  - split.
    + intros H. apply res_bind_Ret in H as (y & Hy & H).
      apply res_bind_Ret in H as (k' & Hk' & [= <-]).
      constructor; [done | by apply IH].
    + intros (y & k' & Hy & Hk' & ->)%Forall2_cons_inv_l.
      rewrite Hy. simpl. apply IH in Hk'. by rewrite Hk'.
Qed.

Lemma set_order_Permutation (o1 o2 : set_order) (l : list value) :
  o1 l ≡ₚ o2 l.
Proof.
  apply NoDup_Permutation; try apply set_iter_NoDup.
  intros x. by rewrite !set_iter_elem.
Qed.

Lemma set_order_singleton (o : set_order) (x : value) : o [x] = [x].
Proof.
  apply Permutation_singleton_r, NoDup_Permutation.
  - apply set_iter_NoDup.
  - apply NoDup_singleton.
  - intros y. apply set_iter_elem.
Qed.

Lemma elem_of_collected_states (o : set_order) (start : value)
    (ts : list Transition) (s : value) :
  s ∈ collected_states o start ts ↔
  s = start ∨ ∃ t, t ∈ ts ∧ (s = current_state t ∨ s = next_state t).
Proof.
  unfold collected_states.
  rewrite set_iter_elem, elem_of_cons, elem_of_app, !list_elem_of_fmap.
  split.
  - intros [->|[(t & -> & Ht)|(t & -> & Ht)]]; eauto.
  - intros [->|(t & Ht & [->| ->])]; eauto.
Qed.

(** Moving the per-state results along a permutation of the states. *)
Lemma Forall2_Permutation_concat {A B : Type}
    (R1 R2 : A → list B → Prop) (l1 l2 : list A) (K1 : list (list B)) :
  (∀ x k1, R1 x k1 → ∃ k2, R2 x k2 ∧ k1 ≡ₚ k2) →
  l1 ≡ₚ l2 →
  Forall2 R1 l1 K1 →
  ∃ K2, Forall2 R2 l2 K2 ∧ concat K1 ≡ₚ concat K2.
Proof.
  intros HR Hp HF. revert l2 Hp.
  induction HF as [|x k l1 K1 Hx _ IH]; intros l2 Hp.
  - apply Permutation_nil_l in Hp as <-. exists []. by split.
  - apply Permutation_cons_inv_l in Hp as (a & b & -> & Hp).
    destruct (IH _ Hp) as (K' & HF' & Hc).
    apply Forall2_app_inv_l in HF' as (Ka & Kb & HFa & HFb & ->).
    destruct (HR _ _ Hx) as (k2 & Hk2 & Hkp).
    exists (Ka ++ k2 :: Kb). split.
    + apply Forall2_app; [done|]. by constructor.
    + simpl. rewrite Hc, Hkp, !concat_app. simpl.
      apply Permutation_app_swap_app.
Qed.

Section EventsFacts.

Variable prog : program.

Lemma events_body_Ret (o : set_order) (se : value → res (list value))
    (start : value) (ts : list Transition) (evs : list value) :
  events_body o se start ts = Ret evs ↔
  ∃ K, Forall2 (λ s k, ∃ d, se s = Ret d ∧ k = unconsumed ts s d)
         (collected_states o start ts) K ∧ evs = concat K.
Proof.
  unfold events_body. rewrite res_bind_Ret. split.
  - intros (K & HK & [= <-]). exists K. split; [|done].
    apply mapM_res_Ret in HK. eapply Forall2_impl; [exact HK|].
    simpl. intros s k Hs. apply res_bind_Ret in Hs as (d & Hd & [= <-]).
    eauto.
  - intros (K & HK & ->). exists K. split; [|done].
    apply mapM_res_Ret. eapply Forall2_impl; [exact HK|].
    simpl. intros s k (d & Hd & ->). by rewrite Hd.
Qed.

Lemma events_body_mono (o : set_order) (se se' : value → res (list value))
    (start : value) (ts : list Transition) (evs : list value) :
  (∀ s d, se s = Ret d → se' s = Ret d) →
  events_body o se start ts = Ret evs →
  events_body o se' start ts = Ret evs.
Proof.
  intros Hse. rewrite !events_body_Ret. intros (K & HK & ->).
  exists K. split; [|done]. eapply Forall2_impl; [exact HK|].
  simpl. intros s k (d & Hd & ->). eauto.
Qed.

Lemma State_events_mono (o : set_order) (n n' : nat) (h : heap)
    (v : value) (evs : list value) :
  n ≤ n' →
  State_events prog o n h v = Ret evs →
  State_events prog o n' h v = Ret evs.
Proof.
  revert n' v evs. induction n as [|n IH]; intros n' v evs Hle; [done|].
  destruct n' as [|n']; [lia|]. simpl.
  destruct v as [| | |r|]; try done.
  destruct (h !! r) as [[c attrs|name start ts|t]|]; try done.
  apply events_body_mono. intros s d. apply IH. lia.
Qed.

(** The order in which the set of states is walked changes the order of
    the result and nothing else. *)
Lemma State_events_Permutation (o1 o2 : set_order) (fuel : nat) (h : heap)
    (v : value) (evs1 : list value) :
  State_events prog o1 fuel h v = Ret evs1 →
  ∃ evs2, State_events prog o2 fuel h v = Ret evs2 ∧ evs1 ≡ₚ evs2.
Proof.
  revert v evs1. induction fuel as [|f IH]; intros v evs1; [done|].
  simpl. destruct v as [| | |r|]; try done.
  destruct (h !! r) as [[c attrs|name start ts|t]|]; try done.
  - intros [= <-]. eauto.
  - rewrite events_body_Ret. intros (K1 & HK1 & ->).
    destruct (Forall2_Permutation_concat
                (λ s k, ∃ d, State_events prog o1 f h s = Ret d ∧
                             k = unconsumed ts s d)
                (λ s k, ∃ d, State_events prog o2 f h s = Ret d ∧
                             k = unconsumed ts s d)
                (collected_states o1 start ts)
                (collected_states o2 start ts) K1) as (K2 & HK2 & Hp).
    + intros s k1 (d1 & Hd1 & ->).
      destruct (IH _ _ Hd1) as (d2 & Hd2 & Hd).
      exists (unconsumed ts s d2). split; [eauto|].
      unfold unconsumed. by rewrite Hd.
    + apply set_order_Permutation.
    + done.
    + exists (concat K2). split; [|done].
      apply events_body_Ret. eauto.
Qed.

End EventsFacts.

(** C9: two reads of [events] on the same machine, whatever the order in
    which each walks the set of states, give the same event tokens the same
    number of times. *)
Theorem FiniteStateMachine_events_twice
    (prog : program) (o1 o2 : set_order) (fuel : nat) (h : heap) (self : ref)
    (evs1 : list value) :
  FiniteStateMachine_events prog o1 fuel h self = Ret evs1 →
  ∃ evs2, FiniteStateMachine_events prog o2 fuel h self = Ret evs2 ∧
          evs1 ≡ₚ evs2.
Proof. apply State_events_Permutation. Qed.

Lemma unconsumed_nil (state : value) (evs : list value) :
  unconsumed [] state evs = evs.
Proof.
  unfold unconsumed. induction evs as [|e evs IH]; [done|].
  rewrite filter_cons_True by done. by rewrite IH.
Qed.

Lemma Forall2_zip_with_results {A B C : Type} (f : A → res B) (g : A → B → C)
    (l : list A) (K : list C) :
  Forall2 (λ x k, ∃ d, f x = Ret d ∧ k = g x d) l K →
  ∃ D, Forall2 (λ x d, f x = Ret d) l D ∧ K = zip_with g l D.
Proof.
  induction 1 as [|x k l K (d & Hd & ->) _ (D & HD & ->)].
  - exists []. by split.
  - exists (d :: D). split; [by constructor | done].
Qed.

(** C2: the [events] property is the specification's algorithm, it has a
    result whenever every collected state has declared events, and a machine
    without transitions has the events of its start state. *)
Theorem FiniteStateMachine_events_derived
    (prog : program) (order : set_order) (h : heap) (self : ref)
    (name start : value) (ts : list Transition) :
  h !! self = Some (OFsm name start ts) →
  (∀ fuel evs,
     FiniteStateMachine_events prog order fuel h self = Ret evs →
     derived_events prog order h self start ts evs) ∧
  ((∀ s, s = start ∨
         (∃ t, t ∈ ts ∧ (s = current_state t ∨ s = next_state t)) →
         ∃ fuel d, State_events prog order fuel h s = Ret d) →
   ∃ fuel evs, FiniteStateMachine_events prog order fuel h self = Ret evs) ∧
  (ts = [] →
   ∀ fuel, FiniteStateMachine_events prog order (S fuel) h self =
           State_events prog order fuel h start).
Proof.
  intros Hself. unfold FiniteStateMachine_events. split_and!.
  - intros [|f] evs; simpl; [done|]. rewrite Hself.
    intros (K & HK & ->)%events_body_Ret.
    apply Forall2_zip_with_results in HK as (D & HD & ->).
    exists (collected_states order start ts), D. split_and!.
    + apply set_iter_NoDup.
    + apply elem_of_collected_states.
    + eapply Forall2_impl; [exact HD|]. simpl. eauto.
    + f_equal. apply zip_with_ext; [|done..]. intros s d.
      unfold unconsumed. apply list_filter_iff. intros e.
      unfold FiniteStateMachine_transition. rewrite Hself.
      split; [by intros -> | by intros [= ->]].
  - intros Hall.
    assert (∃ f D, Forall2 (λ s d, State_events prog order f h s = Ret d)
                     (collected_states order start ts) D) as (f & D & HD).
    { assert (Forall (λ s, ∃ fuel d, State_events prog order fuel h s = Ret d)
                (collected_states order start ts)) as HF.
      { apply Forall_forall. intros s Hs. apply Hall.
        by apply elem_of_collected_states in Hs. }
      induction HF as [|s l (f1 & d & Hd) _ (f2 & D & HD)].
      - exists 0, []. constructor.
      - exists (f1 `max` f2), (d :: D). constructor.
        + eapply State_events_mono; [|exact Hd]. lia.
        + eapply Forall2_impl; [exact HD|]. simpl. intros s' d'.
          apply State_events_mono. lia. }
    exists (S f), (concat (zip_with (unconsumed ts)
                             (collected_states order start ts) D)).
    simpl. rewrite Hself. apply events_body_Ret.
    eexists. split; [|done].
    clear Hall. induction HD as [|s d l D Hd _ IH]; simpl; constructor; eauto.
  - intros -> fuel. simpl. rewrite Hself.
    unfold events_body, collected_states. simpl.
    rewrite set_order_singleton. simpl.
    destruct (State_events prog order fuel h start) as [d| |]; simpl; [|done..].
    by rewrite unconsumed_nil, app_nil_r.
Qed.

(** ** The machines of the test suite *)

Lemma TestDoubles_setattr_keeps (h h' : heap) (v : value) (a : string)
    (x : value) (self : ref) (o : object) :
  h !! self = Some o → (∀ c attrs, o ≠ OState c attrs) →
  TestDoubles.setattr h v a x = Ret h' → h' !! self = Some o.
Proof.
  intros Hself Ho. unfold TestDoubles.setattr.
  destruct v as [| | |r|]; try done.
  destruct (h !! r) as [[c attrs| |]|] eqn:Hr; try done.
  intros [= <-]. rewrite lookup_insert_ne; [done|].
  intros ->. rewrite Hself in Hr. injection Hr as ->. by eapply Ho.
Qed.

(** The test states write to state objects only. *)
Lemma TestDoubles_run_keeps (c : string) (h h' : heap) (r : ref) (e : value)
    (self : ref) (o : object) :
  h !! self = Some o → (∀ c attrs, o ≠ OState c attrs) →
  TestDoubles.run c h r = Ret (h', e) → h' !! self = Some o.
Proof.
  intros Hself Ho. unfold TestDoubles.run.
  repeat case_decide; try done.
  - by intros [= <- _].
  - by intros [= <- _].
  - intros Hret. apply res_bind_Ret in Hret as (v & _ & Hret).
    destruct v as [|n| | |]; try done.
    apply res_bind_Ret in Hret as (h1 & Hset & [= <- _]).
    by eapply TestDoubles_setattr_keeps.
  - intros Hret. apply res_bind_Ret in Hret as (v & _ & Hret).
    apply res_bind_Ret in Hret as (l & _ & Hret).
    destruct v as [|n| | |], l as [|m| | |]; try done.
    by case_bool_decide; injection Hret as <- _.
Qed.

Lemma TestDoubles_call_keeps (f : string) (h h' : heap) (args : list value)
    (self : ref) (o : object) :
  h !! self = Some o → (∀ c attrs, o ≠ OState c attrs) →
  TestDoubles.call f h args = Ret h' → h' !! self = Some o.
Proof.
  intros Hself Ho. unfold TestDoubles.call.
  case_decide; [|done].
  destruct args as [|a [|b [|c [|]]]]; try done.
  intros Hret. apply res_bind_Ret in Hret as (v & _ & Hret).
  by eapply TestDoubles_setattr_keeps.
Qed.

(** C3: the counting machine of [test_counting_fsm] has the derived events
    [('over',)], its run returns ['over'], and leaves the counter at 11. *)
Theorem counting_fsm_test (order : set_order) :
  TestDoubles.counting_fsm =
    Ret (TestDoubles.counting_heap, VRef 1%positive, 3%positive) ∧
  TestDoubles.counting_heap !! 3%positive =
    Some (OFsm (VStr "Counting to 10") (VRef 1%positive)
            [mkTransition (VRef 1%positive) (VStr "counted")
               (VRef 2%positive) (VFun "update");
             mkTransition (VRef 2%positive) (VStr "under")
               (VRef 1%positive) VNone]) ∧
  TestDoubles.getattr TestDoubles.counting_heap (VRef 1%positive) "value"
    = Ret (VInt 0) ∧
  TestDoubles.getattr TestDoubles.counting_heap (VRef 2%positive) "limit"
    = Ret (VInt 10) ∧
  (∃ fuel, FiniteStateMachine_events TestDoubles.prog order fuel
             TestDoubles.counting_heap 3%positive = Ret [VStr "over"]) ∧
  (∃ fuel h', FiniteStateMachine_run TestDoubles.prog fuel
                TestDoubles.counting_heap 3%positive = Ret (h', VStr "over") ∧
              TestDoubles.getattr h' (VRef 1%positive) "value"
                = Ret (VInt 11)).
Proof.
  split_and!; try (vm_compute; reflexivity).
  - exists 2.
    destruct (State_events_Permutation TestDoubles.prog insertion_order order
                2 TestDoubles.counting_heap (VRef 3%positive) [VStr "over"])
      as (evs & Hevs & Hp); [vm_compute; reflexivity|].
    apply Permutation_singleton_l in Hp as <-. exact Hevs.
  - exists 23, TestDoubles.counted_heap. split; vm_compute; reflexivity.
Qed.

(** ** The string of a machine *)

Lemma FiniteStateMachine_str_None
    (str_ : list string → value → res (list string * string))
    (self_events : res (list value)) (h : heap) (out out' : list string)
    (self : ref) (v : value) :
  FiniteStateMachine_str str_ self_events h out self = Ret (out', v) →
  v = VNone.
Proof.
  unfold FiniteStateMachine_str.
  destruct (h !! self) as [[|name start ts|]|]; try done.
  intros H. inv_ret H. congruence.
Qed.

(** [str(machine)] has no result: [__str__] returns [None]. *)
Lemma py_str_machine (prog : program) (order : set_order) (fuel : nat)
    (h : heap) (out : list string) (r : ref) (name start : value)
    (ts : list Transition) (x : list string * string) :
  h !! r = Some (OFsm name start ts) →
  py_str prog order fuel h out (VRef r) ≠ Ret x.
Proof.
  intros Hr. destruct fuel as [|f]; simpl; [done|]. rewrite Hr.
  destruct (FiniteStateMachine_str _ _ h out r) as [[out' v]| |] eqn:Hs;
    simpl; try done.
  by apply FiniteStateMachine_str_None in Hs as ->.
Qed.

(** C7, on the machine of [test_events]: [__str__] prints the text with the
    name, the start state, the transitions and the events, and returns
    [None], so that [str(machine)] raises [TypeError]. *)
Theorem FiniteStateMachine_str_prints (order : set_order) :
  TestDoubles.start_heap !! 2%positive =
    Some (OFsm (VStr "Start machine") (VRef 1%positive) []) ∧
  FiniteStateMachine___str__ TestDoubles.prog order 2
    TestDoubles.start_heap [] 2%positive =
    Ret (["FSM: Start machine" +:+ nl +:+ nl +:+
          "  Start state: Starting" +:+ nl +:+ nl +:+
          "  Transitions:" +:+ nl +:+ nl +:+
          "  Events:" +:+ nl +:+
          "    started" +:+ nl +:+ nl], VNone) ∧
  py_str TestDoubles.prog order 3 TestDoubles.start_heap [] (VRef 2%positive)
    = Raise (TypeError "__str__ returned non-string").
Proof.
  assert (∀ f, State_events TestDoubles.prog order (S (S f))
                 TestDoubles.start_heap (VRef 2%positive)
               = Ret [VStr "started"]) as Hev.
  { intros f.
    destruct (FiniteStateMachine_events_derived TestDoubles.prog order
                TestDoubles.start_heap 2%positive (VStr "Start machine")
                (VRef 1%positive) []) as (_ & _ & H);
      [vm_compute; reflexivity|].
    unfold FiniteStateMachine_events in H. rewrite H by done.
    vm_compute. reflexivity. }
  split_and!.
  - vm_compute. reflexivity.
  - unfold FiniteStateMachine___str__. rewrite Hev. vm_compute. reflexivity.
  - change (py_str TestDoubles.prog order 3 TestDoubles.start_heap []
              (VRef 2%positive))
      with ('(out', result) ←
              FiniteStateMachine_str
                (py_str TestDoubles.prog order 2 TestDoubles.start_heap)
                (State_events TestDoubles.prog order 2
                   TestDoubles.start_heap (VRef 2%positive))
                TestDoubles.start_heap [] 2%positive;
            match result with
            | VStr s => Ret (out', s)
            | _ => Raise (TypeError "__str__ returned non-string")
            end).
    rewrite Hev. vm_compute. reflexivity.
Qed.

(** ** The assertions of the test suite *)

(** [test_init]. *)
Example test_init_transition :
  Transition_init TestDoubles.match_heap (VRef 1%positive) (VStr "started")
    (VRef 2%positive) VNone = Ret (TestDoubles.matched_heap, VRef 4%positive) ∧
  isinstance_Transition TestDoubles.matched_heap (VRef 4%positive) = true.
Proof. split; vm_compute; reflexivity. Qed.

Example test_init_first_parameter :
  Transition_init TestDoubles.match_heap VNone (VStr "started")
    (VRef 2%positive) VNone = Raise (TypeError "current_state").
Proof. vm_compute; reflexivity. Qed.

Example test_init_third_parameter :
  Transition_init TestDoubles.match_heap (VRef 1%positive) (VStr "started")
    VNone VNone = Raise (TypeError "next_state").
Proof. vm_compute; reflexivity. Qed.

Example test_init_fourth_parameter :
  Transition_init TestDoubles.match_heap (VRef 1%positive) (VStr "started")
    (VRef 2%positive) (VInt 2) = Raise (TypeError "update").
Proof. vm_compute; reflexivity. Qed.

(** [test_match]. *)
Example test_match_four :
  Transition_match TestDoubles.start_transition (VRef 1%positive)
    (VStr "started") = true ∧
  Transition_match TestDoubles.start_transition (VRef 2%positive)
    (VStr "started") = false ∧
  Transition_match TestDoubles.start_transition (VRef 1%positive)
    (VStr "ended") = false ∧
  Transition_match TestDoubles.start_transition (VRef 2%positive)
    (VStr "ended") = false.
Proof. repeat split. Qed.

(** [test_events]. *)
Example test_events_start_machine (order : set_order) :
  FiniteStateMachine_events TestDoubles.prog order 2 TestDoubles.start_heap
    2%positive =
  State_events TestDoubles.prog order 1 TestDoubles.start_heap
    (VRef 1%positive) ∧
  State_events TestDoubles.prog order 1 TestDoubles.start_heap
    (VRef 1%positive) = Ret [VStr "started"].
Proof.
  split; [|vm_compute; reflexivity].
  apply (FiniteStateMachine_events_derived TestDoubles.prog order
           TestDoubles.start_heap 2%positive (VStr "Start machine")
           (VRef 1%positive) []); [vm_compute; reflexivity | done].
Qed.

(** The run loop has no bound of its own: on a cycle it never returns. *)
Example looping_machine_never_returns (fuel : nat) :
  FiniteStateMachine_run TestDoubles.prog fuel TestDoubles.looping_heap
    4%positive = OutOfFuel.
Proof.
  assert (∀ f n, run_loop TestDoubles.prog (State_run TestDoubles.prog f) n
                   TestDoubles.looping_heap 4%positive (VRef 1%positive)
                 = OutOfFuel) as Hloop.
  { intros f n. induction n as [|n IH]; [done|].
    change (run_loop TestDoubles.prog (State_run TestDoubles.prog f) (S n)
              TestDoubles.looping_heap 4%positive (VRef 1%positive))
      with
      ('(h1, ev) ← State_run TestDoubles.prog f TestDoubles.looping_heap
                     (VRef 1%positive);
       tr ← FiniteStateMachine_transition h1 4%positive (VRef 1%positive) ev;
       match tr with
       | None => Ret (h1, ev)
       | Some t =>
           '(h2, nxt) ← Transition_apply TestDoubles.prog t h1;
           run_loop TestDoubles.prog (State_run TestDoubles.prog f) n h2
             4%positive nxt
       end).
    destruct f as [|f]; [done|].
    assert (State_run TestDoubles.prog (S f) TestDoubles.looping_heap
              (VRef 1%positive)
            = Ret (TestDoubles.looping_heap, VStr "started")) as ->
      by (vm_compute; reflexivity).
    exact IH. }
  destruct fuel as [|f]; [done|]. apply Hloop.
Qed.

(** ** Instances on the machines of the test suite *)

Lemma FiniteStateMachine_run_iteration_witness :
  TestDoubles.counting_heap !! 3%positive =
    Some (OFsm (VStr "Counting to 10") (VRef 1%positive)
            TestDoubles.counting_transitions) ∧
  ((∃ fuel, FiniteStateMachine_run TestDoubles.prog fuel
              TestDoubles.counting_heap 3%positive =
            Ret (TestDoubles.counted_heap, VStr "over")) ↔
   (∃ taken, iteration TestDoubles.prog 3%positive TestDoubles.counting_heap
               (VRef 1%positive) taken TestDoubles.counted_heap
               (VStr "over"))).
Proof.
  split; [vm_compute; reflexivity|].
  apply (FiniteStateMachine_run_iteration TestDoubles.prog
           TestDoubles.counting_heap 3%positive (VStr "Counting to 10")
           (VRef 1%positive) TestDoubles.counting_transitions).
  vm_compute; reflexivity.
Defined.

Lemma FiniteStateMachine_events_derived_witness :
  TestDoubles.counting_heap !! 3%positive =
    Some (OFsm (VStr "Counting to 10") (VRef 1%positive)
            TestDoubles.counting_transitions) ∧
  derived_events TestDoubles.prog insertion_order TestDoubles.counting_heap
    3%positive (VRef 1%positive) TestDoubles.counting_transitions
    [VStr "over"].
Proof.
  split; [vm_compute; reflexivity|].
  apply (proj1 (FiniteStateMachine_events_derived TestDoubles.prog
                  insertion_order TestDoubles.counting_heap 3%positive
                  (VStr "Counting to 10") (VRef 1%positive)
                  TestDoubles.counting_transitions eq_refl) 2).
  vm_compute; reflexivity.
Defined.

Lemma Transition_match_identity_witness :
  Transition_init TestDoubles.match_heap (VRef 1%positive) (VStr "started")
    (VRef 2%positive) VNone = Ret (TestDoubles.matched_heap, VRef 4%positive) ∧
  TestDoubles.matched_heap !! 4%positive =
    Some (OTransition TestDoubles.start_transition) ∧
  TestDoubles.matched_heap !! 3%positive =
    TestDoubles.matched_heap !! 1%positive ∧
  ∃ r : ref,
    VRef 1%positive = VRef r ∧
    (∀ s e, Transition_match TestDoubles.start_transition s e = true ↔
            s = VRef r ∧ py_eq (VStr "started") e = true) ∧
    (∀ r' e, r' ≠ r →
             TestDoubles.matched_heap !! r' = TestDoubles.matched_heap !! r →
             Transition_match TestDoubles.start_transition (VRef r') e
               = false) ∧
    (∀ e, py_eq (VStr "started") e = false →
          Transition_match TestDoubles.start_transition (VRef r) e = false).
Proof.
  split_and!; [vm_compute; reflexivity..|].
  apply (Transition_match_identity TestDoubles.match_heap
           TestDoubles.matched_heap (VRef 1%positive) (VStr "started")
           (VRef 2%positive) VNone 4%positive TestDoubles.start_transition);
    vm_compute; reflexivity.
Defined.

Lemma FiniteStateMachine_transition_first_witness :
  TestDoubles.counting_heap !! 3%positive =
    Some (OFsm (VStr "Counting to 10") (VRef 1%positive)
            TestDoubles.counting_transitions) ∧
  (FiniteStateMachine_transition TestDoubles.counting_heap 3%positive
     (VRef 2%positive) (VStr "over") = Ret None ↔
   Forall (λ t', Transition_match t' (VRef 2%positive) (VStr "over") = false)
     TestDoubles.counting_transitions).
Proof.
  split; [vm_compute; reflexivity|].
  apply (FiniteStateMachine_transition_first TestDoubles.counting_heap
           3%positive (VStr "Counting to 10") (VRef 1%positive)
           TestDoubles.counting_transitions).
  vm_compute; reflexivity.
Defined.

Lemma Transition_apply_no_update_witness :
  Transition_init TestDoubles.match_heap (VRef 1%positive) (VStr "started")
    (VRef 2%positive) VNone = Ret (TestDoubles.matched_heap, VRef 4%positive) ∧
  TestDoubles.matched_heap !! 4%positive =
    Some (OTransition TestDoubles.start_transition) ∧
  Transition_apply TestDoubles.prog TestDoubles.start_transition
    TestDoubles.matched_heap = Ret (TestDoubles.matched_heap, VRef 2%positive).
Proof.
  split_and!; [vm_compute; reflexivity..|].
  apply (Transition_apply_no_update TestDoubles.prog TestDoubles.match_heap
           TestDoubles.matched_heap (VRef 1%positive) (VStr "started")
           (VRef 2%positive) 4%positive);
    vm_compute; reflexivity.
Defined.

Lemma FiniteStateMachine_events_twice_witness :
  FiniteStateMachine_events TestDoubles.prog insertion_order 2
    TestDoubles.two_state_heap 4%positive =
    Ret [VStr "started"; VStr "ended"] ∧
  FiniteStateMachine_events TestDoubles.prog reverse_order 2
    TestDoubles.two_state_heap 4%positive =
    Ret [VStr "ended"; VStr "started"] ∧
  ∃ evs2, FiniteStateMachine_events TestDoubles.prog reverse_order 2
            TestDoubles.two_state_heap 4%positive = Ret evs2 ∧
          [VStr "started"; VStr "ended"] ≡ₚ evs2.
Proof.
  split_and!; [vm_compute; reflexivity..|].
  apply (FiniteStateMachine_events_twice TestDoubles.prog insertion_order
           reverse_order 2 TestDoubles.two_state_heap 4%positive).
  vm_compute; reflexivity.
Defined.

Lemma FiniteStateMachine_run_frame_witness :
  TestDoubles.counting_heap !! 3%positive =
    Some (OFsm (VStr "Counting to 10") (VRef 1%positive)
            TestDoubles.counting_transitions) ∧
  FiniteStateMachine_run TestDoubles.prog 23 TestDoubles.counting_heap
    3%positive = Ret (TestDoubles.counted_heap, VStr "over") ∧
  TestDoubles.counted_heap ≠ TestDoubles.counting_heap ∧
  TestDoubles.counted_heap !! 3%positive =
    Some (OFsm (VStr "Counting to 10") (VRef 1%positive)
            TestDoubles.counting_transitions).
Proof.
  split_and!; [vm_compute; reflexivity..| |].
  - intros H.
    assert (TestDoubles.counted_heap !! 1%positive =
            TestDoubles.counting_heap !! 1%positive) as H1 by by rewrite H.
    vm_compute in H1. discriminate H1.
  - apply (λ H1 H2 H3 H4, proj1 (proj2
             (FiniteStateMachine_run_frame TestDoubles.prog 23
                TestDoubles.counting_heap 3%positive (VStr "Counting to 10")
                (VRef 1%positive) TestDoubles.counting_transitions
                TestDoubles.counted_heap (VStr "over") H1 H2 H3 H4))).
    + intros c h0 r h1 e Hc r' o Hr Ho.
      exact (TestDoubles_run_keeps c h0 h1 r e r' o Hr Ho Hc).
    + intros f h0 args h1 Hc r' o Hr Ho.
      exact (TestDoubles_call_keeps f h0 h1 args r' o Hr Ho Hc).
    + vm_compute; reflexivity.
    + vm_compute; reflexivity.
Defined.

(** * Further properties of the engine *)

(** ** Results and fuel *)

(** Once [run] has a result, a return or an exception, more fuel gives the
    same result. *)
Lemma run_loop_mono_res (prog : program)
    (rs rs' : heap → value → res (heap * value))
    (n n' : nat) (h : heap) (self : ref) (cur : value)
    (x : res (heap * value)) :
  (∀ h v y, y ≠ OutOfFuel → rs h v = y → rs' h v = y) →
  n ≤ n' →
  x ≠ OutOfFuel →
  run_loop prog rs n h self cur = x →
  run_loop prog rs' n' h self cur = x.
Proof.
  intros Hrs. revert n' h cur.
  induction n as [|n IH]; intros n' h cur Hle Hx; simpl; [congruence|].
  destruct n' as [|n']; [lia|]. simpl.
  destruct (rs h cur) as [[h1 ev]|e|] eqn:Hr; simpl.
  - rewrite (Hrs h cur (Ret (h1, ev)) ltac:(done) Hr). simpl.
    destruct (FiniteStateMachine_transition h1 self cur ev)
      as [[t|]| |]; simpl; try done.
    destruct (Transition_apply prog t h1) as [[h2 nxt]| |]; simpl; try done.
    apply IH; [lia | done].
  - by rewrite (Hrs h cur (Raise e) ltac:(done) Hr).
  - congruence.
Qed.

Lemma State_run_mono_res (prog : program) (n n' : nat) (h : heap)
    (v : value) (x : res (heap * value)) :
  n ≤ n' → x ≠ OutOfFuel →
  State_run prog n h v = x → State_run prog n' h v = x.
Proof.
  revert n' h v x.
  induction n as [|n IH]; intros n' h v x Hle Hx; simpl; [congruence|].
  destruct n' as [|n']; [lia|]. simpl.
  destruct v as [| | |r|]; try done.
  destruct (h !! r) as [[c attrs|name start ts|t]|]; try done.
  apply run_loop_mono_res; [|lia|done].
  intros h0 v0 y Hy. apply IH; [lia | done].
Qed.

(** A result of the loop after some turns is a result of the loop. *)
Lemma run_loop_turns (prog : program) (self : ref) (c ck : heap * value)
    (x : res (heap * value)) :
  rtc (turn prog self) c ck →
  x ≠ OutOfFuel →
  (∃ f n, run_loop prog (State_run prog f) n ck.1 self ck.2 = x) →
  ∃ f n, run_loop prog (State_run prog f) n c.1 self c.2 = x.
Proof.
  intros Hrtc Hx. induction Hrtc as [c|c c1 ck Hturn _ IH]; [done|].
  intros (f & n & Hl)%IH.
  destruct Hturn as (f0 & h1 & ev & t & Hr & Ht & Ha).
  exists (f0 `max` f), (S n). simpl.
  rewrite (State_run_mono_res prog f0 (f0 `max` f) _ _ (Ret (h1, ev))
             (Nat.le_max_l _ _) ltac:(done) Hr).
  simpl. rewrite Ht. simpl. rewrite Ha. destruct c1 as [h2 nxt]. simpl.
  eapply run_loop_mono_res; [| |exact Hx|exact Hl]; [|done].
  intros h0 v0 y Hy. apply State_run_mono_res; [lia | done].
Qed.

(** X1: [run] has no [try]: after any number of turns, what the current
    state's [run] raises, or what the update of the transition taken raises,
    is what the machine's [run] raises. *)
Theorem FiniteStateMachine_run_propagates
    (prog : program) (h : heap) (self : ref) (name start : value)
    (ts : list Transition) (hk : heap) (cur : value) (e : exn) :
  h !! self = Some (OFsm name start ts) →
  rtc (turn prog self) (h, start) (hk, cur) →
  (∃ f, State_run prog f hk cur = Raise e) ∨
  (∃ f h1 ev t, State_run prog f hk cur = Ret (h1, ev) ∧
                FiniteStateMachine_transition h1 self cur ev = Ret (Some t) ∧
                Transition_apply prog t h1 = Raise e) →
  ∃ fuel, FiniteStateMachine_run prog fuel h self = Raise e.
Proof.
  intros Hself Hrtc Hraise.
  destruct (run_loop_turns prog self (h, start) (hk, cur) (Raise e) Hrtc)
    as (f & n & Hl); [done| |].
  - destruct Hraise as [[f Hr]|(f & h1 & ev & t & Hr & Ht & Ha)];
      exists f, 1; simpl; rewrite Hr; simpl; [done|].
    rewrite Ht. simpl. by rewrite Ha.
  - exists (S (f `max` n)). unfold FiniteStateMachine_run. simpl.
    rewrite Hself. simpl in Hl.
    eapply run_loop_mono_res; [| |done|exact Hl]; [|lia].
    intros h0 v0 y Hy. apply State_run_mono_res; [lia | done].
Qed.

(** ** The event of a run is a derived event *)

Lemma elem_of_concat {A : Type} (x : A) (K : list (list A)) :
  x ∈ concat K ↔ ∃ k, k ∈ K ∧ x ∈ k.
Proof.
  rewrite list_elem_of_In, in_concat. split.
  - intros (k & Hk & Hx). exists k. by rewrite !list_elem_of_In.
  - intros (k & Hk & Hx). exists k. by rewrite <-!list_elem_of_In.
Qed.

Lemma keeps_classes_refl (h : heap) : keeps_classes h h.
Proof. intros r o Hr. destruct o; eauto. Qed.

Lemma keeps_classes_trans (h1 h2 h3 : heap) :
  keeps_classes h1 h2 → keeps_classes h2 h3 → keeps_classes h1 h3.
Proof.
  intros H12 H23 r o Hr. specialize (H12 r o Hr).
  destruct o as [c attrs|name start ts|t].
  - destruct H12 as [attrs' Hr2]. exact (H23 r _ Hr2).
  - exact (H23 r _ H12).
  - exact (H23 r _ H12).
Qed.

Section RunInEvents.

Variable prog : program.
Variable order : set_order.

Hypothesis run_keeps : ∀ c h0 r h1 e,
  cls_run prog c h0 r = Ret (h1, e) → keeps_classes h0 h1.
Hypothesis call_keeps : ∀ f h0 args h1,
  fn_call prog f h0 args = Ret h1 → keeps_classes h0 h1.
Hypothesis run_declared : ∀ c h0 r h1 e,
  cls_run prog c h0 r = Ret (h1, e) → e ∈ cls_events prog c h0 r.
Hypothesis events_fixed : ∀ c r h0 h1,
  keeps_classes h0 h1 → cls_events prog c h1 r = cls_events prog c h0 r.

Lemma State_run_keeps_classes (fuel : nat) (h : heap) (v : value)
    (h' : heap) (e : value) :
  State_run prog fuel h v = Ret (h', e) → keeps_classes h h'.
Proof.
  apply (State_run_invariant prog (keeps_classes h)).
  - intros c h0 r h1 e0 Hh0 Hc.
    eapply keeps_classes_trans; [exact Hh0 | by eapply run_keeps].
  - intros f h0 args h1 Hh0 Hc.
    eapply keeps_classes_trans; [exact Hh0 | by eapply call_keeps].
  - apply keeps_classes_refl.
Qed.

Lemma Transition_apply_keeps_classes (t : Transition) (h h' : heap)
    (v : value) :
  Transition_apply prog t h = Ret (h', v) → keeps_classes h h'.
Proof.
  unfold Transition_apply. destruct (_update t) as [| | | |f]; try done.
  - intros [= <- _]. apply keeps_classes_refl.
  - destruct (fn_call prog f h _) as [h1| |] eqn:Hf; simpl; try done.
    intros [= <- _]. by eapply call_keeps.
Qed.

Lemma State_events_keeps_classes (fuel : nat) (h h' : heap) (v : value)
    (d : list value) :
  keeps_classes h h' →
  State_events prog order fuel h v = Ret d →
  State_events prog order fuel h' v = Ret d.
Proof.
  intros Hk. revert v d. induction fuel as [|f IH]; intros v d; [done|].
  simpl. destruct v as [| | |r|]; try done.
  destruct (h !! r) as [[c attrs|name start ts|t]|] eqn:Hr; try done.
  - destruct (Hk r _ Hr) as [attrs' ->]. intros [= <-].
    by rewrite (events_fixed c r h h').
  - rewrite (Hk r _ Hr). apply events_body_mono. exact IH.
Qed.

Lemma elem_of_events_body (se : value → res (list value)) (start : value)
    (ts : list Transition) (evs d : list value) (s e : value) :
  events_body order se start ts = Ret evs →
  s ∈ collected_states order start ts →
  se s = Ret d → e ∈ d → first_match ts s e = None →
  e ∈ evs.
Proof.
  intros (K & HK & ->)%events_body_Ret Hs Hd He Hnone.
  apply list_elem_of_lookup in Hs as [i Hi].
  destruct (Forall2_lookup_l _ _ _ _ _ HK Hi) as (k & Hk & d' & Hd' & ->).
  rewrite Hd in Hd'. injection Hd' as <-.
  apply elem_of_concat. exists (unconsumed ts s d). split.
  - apply list_elem_of_lookup. eauto.
  - unfold unconsumed. by apply list_elem_of_filter.
Qed.

Lemma State_run_declared (fuel : nat) :
  ∀ (h : heap) (v : value) (h' : heap) (e : value) (fuel' : nat)
    (d : list value),
  State_run prog fuel h v = Ret (h', e) →
  State_events prog order fuel' h v = Ret d →
  e ∈ d.
Proof.
  induction fuel as [|f IH]; intros h v h' e fuel' d; [done|].
  destruct fuel' as [|f']; [done|]. simpl.
  destruct v as [| | |r|]; try done.
  destruct (h !! r) as [[c attrs|name start ts|t]|] eqn:Hr; try done.
  - intros Hrun [= <-]. by eapply run_declared.
  - intros Hloop Hev.
    assert (∀ n hk cur,
              keeps_classes h hk →
              cur ∈ collected_states order start ts →
              run_loop prog (State_run prog f) n hk r cur = Ret (h', e) →
              e ∈ d) as Hgen.
    { induction n as [|n IHn]; intros hk cur Hk Hcur; simpl; [done|].
      destruct (State_run prog f hk cur) as [[h1 e1]| |] eqn:Hc;
        simpl; try done.
      pose proof (State_run_keeps_classes _ _ _ _ _ Hc) as Hk1.
      pose proof (keeps_classes_trans _ _ _ Hk Hk1) as Hk01.
      unfold FiniteStateMachine_transition.
      rewrite (Hk01 r _ Hr). simpl.
      pose proof Hev as (K & HK & _)%events_body_Ret.
      pose proof Hcur as [i Hi]%list_elem_of_lookup.
      destruct (Forall2_lookup_l _ _ _ _ _ HK Hi) as (k & _ & dd & Hdd & _).
      destruct (first_match ts cur e1) as [t|] eqn:Hm.
      - destruct (Transition_apply prog t h1) as [[h2 nxt]| |] eqn:Ha;
          simpl; try done.
        apply IHn.
        + eapply keeps_classes_trans; [exact Hk01|].
          by eapply Transition_apply_keeps_classes.
        + apply Transition_apply_next in Ha as ->.
          apply elem_of_collected_states. right. exists t. split; [|by right].
          apply list_elem_of_In. eapply find_some. exact Hm.
      - intros [= <- <-].
        eapply (elem_of_events_body _ start ts d dd cur e1); try done.
        eapply IH; [exact Hc|].
        eapply State_events_keeps_classes; [exact Hk | exact Hdd]. }
    apply (Hgen f h start); [apply keeps_classes_refl| |exact Hloop].
    apply elem_of_collected_states. by left.
Qed.

End RunInEvents.

(** X2: when every state's [run] returns one of the events that the state
    declares, and consumer code keeps objects in their classes and the
    declared events fixed, the event that a machine's [run] returns is one of
    the machine's derived [events]. *)
Theorem FiniteStateMachine_run_in_events
    (prog : program) (order : set_order) (fuel fuel' : nat) (h : heap)
    (self : ref) (h' : heap) (ev : value) (evs : list value) :
  (∀ c h0 r h1 e, cls_run prog c h0 r = Ret (h1, e) → keeps_classes h0 h1) →
  (∀ f h0 args h1, fn_call prog f h0 args = Ret h1 → keeps_classes h0 h1) →
  (∀ c h0 r h1 e, cls_run prog c h0 r = Ret (h1, e) →
                  e ∈ cls_events prog c h0 r) →
  (∀ c r h0 h1, keeps_classes h0 h1 →
                cls_events prog c h1 r = cls_events prog c h0 r) →
  FiniteStateMachine_run prog fuel h self = Ret (h', ev) →
  FiniteStateMachine_events prog order fuel' h self = Ret evs →
  ev ∈ evs.
Proof.
  intros Hk Hc Hd Hf Hrun Hev.
  exact (State_run_declared prog order Hk Hc Hd Hf fuel h (VRef self) h' ev
           fuel' evs Hrun Hev).
Qed.

(** ** Machines without transitions, unchecked start states, self-nesting *)

Lemma State_run_machine (prog : program) (f : nat) (h : heap) (r : ref)
    (name start : value) (ts : list Transition) :
  h !! r = Some (OFsm name start ts) →
  State_run prog (S f) h (VRef r) =
  run_loop prog (State_run prog f) f h r start.
Proof. intros Hr. simpl. by rewrite Hr. Qed.

Lemma run_loop_S (prog : program)
    (rs : heap → value → res (heap * value)) (n : nat) (h : heap)
    (self : ref) (cur : value) :
  run_loop prog rs (S n) h self cur =
  '(h1, ev) ← rs h cur;
  tr ← FiniteStateMachine_transition h1 self cur ev;
  match tr with
  | None => Ret (h1, ev)
  | Some t =>
      '(h2, nxt) ← Transition_apply prog t h1;
      run_loop prog rs n h2 self nxt
  end.
Proof. reflexivity. Qed.

Lemma State_events_machine (prog : program) (order : set_order) (f : nat)
    (h : heap) (r : ref) (name start : value) (ts : list Transition) :
  h !! r = Some (OFsm name start ts) →
  State_events prog order (S f) h (VRef r) =
  events_body order (State_events prog order f h) start ts.
Proof. intros Hr. simpl. by rewrite Hr. Qed.




(** X3: a machine without transitions runs as its start state does: the
    same event and heap, or the same exception. *)
Theorem FiniteStateMachine_run_no_transitions
    (prog : program) (fuel : nat) (h : heap) (self : ref)
    (name start : value) :
  (∀ c h0 r h1 e, cls_run prog c h0 r = Ret (h1, e) →
                  writes_states_only h0 h1) →
  (∀ f h0 args h1, fn_call prog f h0 args = Ret h1 →
                   writes_states_only h0 h1) →
  h !! self = Some (OFsm name start []) →
  FiniteStateMachine_run prog (S (S fuel)) h self =
  State_run prog (S fuel) h start.
Proof.
  intros Hrun Hcall Hself. unfold FiniteStateMachine_run.
  rewrite (State_run_machine prog _ h self name start [] Hself), run_loop_S.
  destruct (State_run prog (S fuel) h start) as [[h1 ev]| |] eqn:Hr;
    [|done..].
  assert (h1 !! self = Some (OFsm name start [])) as Hself1.
  { eapply (State_run_invariant prog
              (λ h0, h0 !! self = Some (OFsm name start [])));
      [| |exact Hself|exact Hr].
    - intros c h0 r h2 e Hh0 Hc. by eapply Hrun.
    - intros f h0 args h2 Hh0 Hc. by eapply Hcall. }
  simpl. unfold FiniteStateMachine_transition. by rewrite Hself1.
Qed.

(** X4: a machine that is one of its own states, as start state or in a
    transition, has no derived events: reading [events] recurses without
    end; and when it is its own start state [run] recurses without end. *)
Theorem FiniteStateMachine_self_nested
    (prog : program) (order : set_order) (h : heap) (self : ref)
    (name start : value) (ts : list Transition) :
  h !! self = Some (OFsm name start ts) →
  (VRef self = start ∨
   (∃ t, t ∈ ts ∧ (VRef self = current_state t ∨ VRef self = next_state t)) →
   ∀ fuel evs, FiniteStateMachine_events prog order fuel h self ≠ Ret evs) ∧
  (VRef self = start →
   ∀ fuel, FiniteStateMachine_run prog fuel h self = OutOfFuel).
Proof.
  intros Hself. split.
  - intros Hin fuel. unfold FiniteStateMachine_events.
    induction fuel as [|f IH]; intros evs; [done|].
    rewrite (State_events_machine prog order f h self name start ts Hself).
    intros (K & HK & _)%events_body_Ret.
    assert (VRef self ∈ collected_states order start ts) as Hs.
    { apply elem_of_collected_states.
      destruct Hin as [<-|Hin]; [by left | by right]. }
    apply list_elem_of_lookup in Hs as [i Hi].
    destruct (Forall2_lookup_l _ _ _ _ _ HK Hi) as (k & _ & d & Hd & _).
    by eapply IH.
  - intros <- fuel. unfold FiniteStateMachine_run.
    induction fuel as [|f IH]; [done|].
    rewrite (State_run_machine prog f h self name (VRef self) ts Hself).
    destruct f as [|n]; [done|]. rewrite run_loop_S.
    by rewrite IH.
Qed.


(** ** Adding transitions *)

(** X6: [add] raises, a [TypeError], exactly when its argument is not an
    instance of [Transition]; a transition is taken as it is, whatever its
    states and whatever the list already holds, and goes to the end of the
    list. *)
Theorem FiniteStateMachine_add_raises
    (h : heap) (self : ref) (name start : value) (ts : list Transition)
    (tr : value) :
  h !! self = Some (OFsm name start ts) →
  ((∃ e, FiniteStateMachine_add h self tr = Raise e) ↔
   isinstance_Transition h tr = false) ∧
  (∀ e, FiniteStateMachine_add h self tr = Raise e →
        e = TypeError "transition") ∧
  (∀ r t, tr = VRef r → h !! r = Some (OTransition t) →
          FiniteStateMachine_add h self tr =
          Ret (<[self := OFsm name start (ts ++ [t])]> h)).
Proof.
  intros Hself. unfold FiniteStateMachine_add, isinstance_Transition.
  assert (∀ e, (Raise (TypeError "transition") : res heap) = Raise e →
               e = TypeError "transition") as Hexn by by intros e [= <-].
  destruct tr as [| | |r|]; simpl;
    try (split_and!; [split; eauto | exact Hexn | by intros ? ? [=]]).
  rewrite Hself.
  destruct (h !! r) as [[c attrs|n s l|t]|] eqn:Hr; simpl;
    try (split_and!; [split; eauto | exact Hexn | by intros ? ? [= <-]; rewrite Hr]).
  split_and!.
  - split; [by intros [e ?] | done].
  - done.
  - intros r0 t0 [= <-]. rewrite Hr. by intros [= <-].
Qed.

(** X7: after [add], the lookup finds for every state and event what it
    found before, and the new transition where it found nothing and the new
    transition matches; the pair of the new transition has a transition; no
    other object changes. *)
Theorem FiniteStateMachine_add_lookup
    (h : heap) (self : ref) (name start : value) (ts : list Transition)
    (r : ref) (t : Transition) :
  h !! self = Some (OFsm name start ts) →
  h !! r = Some (OTransition t) →
  ∃ h',
    FiniteStateMachine_add h self (VRef r) = Ret h' ∧
    (∀ state ev,
       FiniteStateMachine_transition h' self state ev =
       Ret (match first_match ts state ev with
            | Some t0 => Some t0
            | None => if Transition_match t state ev then Some t else None
            end)) ∧
    (∀ state ev t0,
       FiniteStateMachine_transition h self state ev = Ret (Some t0) →
       FiniteStateMachine_transition h' self state ev = Ret (Some t0)) ∧
    (∃ t0, FiniteStateMachine_transition h' self (current_state t) (event t)
           = Ret (Some t0)) ∧
    (∀ r', r' ≠ self → h' !! r' = h !! r').
Proof.
  intros Hself Hr. exists (<[self := OFsm name start (ts ++ [t])]> h).
  assert (∀ state ev,
            FiniteStateMachine_transition
              (<[self := OFsm name start (ts ++ [t])]> h) self state ev =
            Ret (match first_match ts state ev with
                 | Some t0 => Some t0
                 | None =>
                     if Transition_match t state ev then Some t else None
                 end)) as Hlookup.
  { intros state ev. unfold FiniteStateMachine_transition.
    rewrite lookup_insert_eq. unfold first_match. rewrite find_app. simpl.
    by destruct (Transition_match t state ev). }
  split_and!.
  - unfold FiniteStateMachine_add, isinstance_Transition.
    by rewrite Hr, Hself.
  - exact Hlookup.
  - intros state ev t0. rewrite Hlookup.
    unfold FiniteStateMachine_transition. rewrite Hself.
    by intros [= ->].
  - rewrite Hlookup. destruct (first_match ts _ _) as [t0|]; [by eauto|].
    assert (Transition_match t (current_state t) (event t) = true) as ->
      by by apply Transition_match_spec.
    by eauto.
  - intros r' Hne. by rewrite lookup_insert_ne.
Qed.

(** ** Derived events and runs *)

(** X9: a run leaves the derived events as they were, when consumer code
    keeps objects in their classes and the declared events fixed. *)
Theorem FiniteStateMachine_events_after_run
    (prog : program) (order : set_order) (fuel fuel' : nat) (h : heap)
    (self : ref) (h' : heap) (ev : value) (evs : list value) :
  (∀ c h0 r h1 e, cls_run prog c h0 r = Ret (h1, e) → keeps_classes h0 h1) →
  (∀ f h0 args h1, fn_call prog f h0 args = Ret h1 → keeps_classes h0 h1) →
  (∀ c r h0 h1, keeps_classes h0 h1 →
                cls_events prog c h1 r = cls_events prog c h0 r) →
  FiniteStateMachine_run prog fuel h self = Ret (h', ev) →
  FiniteStateMachine_events prog order fuel' h self = Ret evs →
  FiniteStateMachine_events prog order fuel' h' self = Ret evs.
Proof.
  intros Hk Hc Hf Hrun Hev.
  eapply (State_events_keeps_classes prog order Hf); [|exact Hev].
  exact (State_run_keeps_classes prog Hk Hc _ _ _ _ _ Hrun).
Qed.

(** ** Derived events and added transitions *)

Lemma filter_submseteq_mono {A : Type} (P Q : A → Prop)
    `{∀ x, Decision (P x)} `{∀ x, Decision (Q x)} (l k : list A) :
  (∀ x, P x → Q x) → l ⊆+ k → filter P l ⊆+ filter Q k.
Proof.
  intros HPQ Hlk. trans (filter P k).
  - clear HPQ. induction Hlk as [|x l1 l2 _ IH|x y l|x l1 l2 _ IH|l1 l2 l3 _ IH1 _ IH2].
    + done.
    + rewrite !filter_cons. destruct (decide (P x)); [by constructor | done].
    + rewrite !filter_cons.
      destruct (decide (P x)), (decide (P y)); try done. by constructor.
    + rewrite filter_cons. destruct (decide (P x)); [by constructor | done].
    + by trans (filter P l2).
  - clear Hlk. induction k as [|x k IH]; [done|].
    rewrite !filter_cons.
    destruct (decide (P x)) as [HP|HP], (decide (Q x)) as [HQ|HQ].
    + by constructor.
    + by destruct HQ; apply HPQ.
    + by constructor.
    + done.
Qed.

Lemma Forall2_Permutation_concat_sub {A B : Type}
    (R1 R2 : A → list B → Prop) (l1 l2 : list A) (K1 : list (list B)) :
  (∀ x k1, R1 x k1 → ∃ k2, R2 x k2 ∧ k2 ⊆+ k1) →
  l1 ≡ₚ l2 →
  Forall2 R1 l1 K1 →
  ∃ K2, Forall2 R2 l2 K2 ∧ concat K2 ⊆+ concat K1.
Proof.
  intros HR Hp HF. revert l2 Hp.
  induction HF as [|x k l1 K1 Hx _ IH]; intros l2 Hp.
  - apply Permutation_nil_l in Hp as <-. exists []. by split.
  - apply Permutation_cons_inv_l in Hp as (a & b & -> & Hp).
    destruct (IH _ Hp) as (K' & HF' & Hc).
    apply Forall2_app_inv_l in HF' as (Ka & Kb & HFa & HFb & ->).
    destruct (HR _ _ Hx) as (k2 & Hk2 & Hkp).
    exists (Ka ++ k2 :: Kb). split.
    + apply Forall2_app; [done|]. by constructor.
    + rewrite concat_app in *. simpl.
      rewrite (Permutation_app_swap_app (concat Ka) k2 (concat Kb)).
      by apply submseteq_app.
Qed.

Lemma unconsumed_app_submseteq (ts : list Transition) (t : Transition)
    (state : value) (d' d : list value) :
  d' ⊆+ d → unconsumed (ts ++ [t]) state d' ⊆+ unconsumed ts state d.
Proof.
  intros Hd. unfold unconsumed. apply filter_submseteq_mono; [|done].
  intros ev. unfold first_match. rewrite find_app.
  by destruct (find _ ts).
Qed.

Section AddEvents.

Variable prog : program.
Variable order : set_order.
Variable h : heap.
Variable self : ref.
Variables name start : value.
Variable ts : list Transition.
Variable t : Transition.

Hypothesis Hself : h !! self = Some (OFsm name start ts).
Hypothesis Hcs : current_state t ∈ collected_states order start ts.
Hypothesis Hns : next_state t ∈ collected_states order start ts.
Hypothesis events_same : ∀ c r,
  cls_events prog c (<[self := OFsm name start (ts ++ [t])]> h) r =
  cls_events prog c h r.

Lemma State_events_add (fuel : nat) (v : value) (d : list value) :
  State_events prog order fuel h v = Ret d →
  ∃ d', State_events prog order fuel
          (<[self := OFsm name start (ts ++ [t])]> h) v = Ret d' ∧
        d' ⊆+ d.
Proof.
  set (h' := <[self := OFsm name start (ts ++ [t])]> h) in *.
  revert v d. induction fuel as [|f IH]; intros v d; [done|].
  simpl. destruct v as [| | |r|]; try done.
  destruct (decide (r = self)) as [->|Hne].
  - unfold h' at 1. rewrite lookup_insert_eq, Hself.
    intros (K & HK & ->)%events_body_Ret.
    destruct (Forall2_Permutation_concat_sub
                (λ s k, ∃ d, State_events prog order f h s = Ret d ∧
                             k = unconsumed ts s d)
                (λ s k, ∃ d, State_events prog order f h' s = Ret d ∧
                             k = unconsumed (ts ++ [t]) s d)
                (collected_states order start ts)
                (collected_states order start (ts ++ [t])) K)
      as (K2 & HK2 & Hsub).
    + intros s k1 (d1 & Hd1 & ->).
      destruct (IH _ _ Hd1) as (d2 & Hd2 & Hd).
      exists (unconsumed (ts ++ [t]) s d2). split; [eauto|].
      by apply unconsumed_app_submseteq.
    + apply NoDup_Permutation; try apply set_iter_NoDup.
      intros s. rewrite !elem_of_collected_states. split.
      * intros [->|(t0 & Ht0 & Hs)]; [by left|].
        right. exists t0. split; [|done]. apply elem_of_app. by left.
      * intros [->|(t0 & Ht0 & Hs)]; [by left|].
        apply elem_of_app in Ht0 as [Ht0|Ht0%list_elem_of_singleton].
        -- right. eauto.
        -- subst t0. destruct Hs as [-> | ->].
           ++ by apply elem_of_collected_states in Hcs.
           ++ by apply elem_of_collected_states in Hns.
    + done.
    + exists (concat K2). split; [|done]. apply events_body_Ret. eauto.
  - unfold h' at 1. rewrite lookup_insert_ne by done.
    destruct (h !! r) as [[c attrs|name0 start0 ts0|t0]|]; try done.
    + intros [= <-]. exists (cls_events prog c h r).
      by rewrite events_same.
    + intros (K & HK & ->)%events_body_Ret.
      destruct (Forall2_Permutation_concat_sub
                  (λ s k, ∃ d, State_events prog order f h s = Ret d ∧
                               k = unconsumed ts0 s d)
                  (λ s k, ∃ d, State_events prog order f h' s = Ret d ∧
                               k = unconsumed ts0 s d)
                  (collected_states order start0 ts0)
                  (collected_states order start0 ts0) K)
        as (K2 & HK2 & Hsub).
      * intros s k1 (d1 & Hd1 & ->).
        destruct (IH _ _ Hd1) as (d2 & Hd2 & Hd).
        exists (unconsumed ts0 s d2). split; [eauto|].
        unfold unconsumed. by apply filter_submseteq_mono.
      * done.
      * done.
      * exists (concat K2). split; [|done]. apply events_body_Ret. eauto.
Qed.

End AddEvents.

(** X8: a transition added between states that the machine already has
    adds no derived event: the events after [add] are among the events
    before, each as often at most. *)
Theorem FiniteStateMachine_add_events
    (prog : program) (order : set_order) (fuel : nat) (h : heap) (self : ref)
    (name start : value) (ts : list Transition) (r : ref) (t : Transition)
    (h' : heap) (evs : list value) :
  h !! self = Some (OFsm name start ts) →
  h !! r = Some (OTransition t) →
  current_state t ∈ collected_states order start ts →
  next_state t ∈ collected_states order start ts →
  FiniteStateMachine_add h self (VRef r) = Ret h' →
  (∀ c r0, cls_events prog c h' r0 = cls_events prog c h r0) →
  FiniteStateMachine_events prog order fuel h self = Ret evs →
  ∃ evs', FiniteStateMachine_events prog order fuel h' self = Ret evs' ∧
          evs' ⊆+ evs.
Proof.
  intros Hself Hr Hcs Hns Hadd Hev.
  apply FiniteStateMachine_add_Ret in Hadd
    as (r0 & t0 & name0 & start0 & ts0 & [= <-] & Hr0 & Hs0 & ->).
  rewrite Hr in Hr0. injection Hr0 as <-.
  rewrite Hself in Hs0. injection Hs0 as <- <- <-.
  by apply State_events_add.
Qed.

(** ** Strings *)

Lemma render_lines_out {A : Type}
    (item : list string → A → res (list string * string))
    (xs : list A) (out out' : list string) (text text' : string) :
  (∀ o x o' s, item o x = Ret (o', s) → o' = o) →
  render_lines item out text xs = Ret (out', text') → out' = out.
Proof.
  intros Hitem. revert out text.
  induction xs as [|x xs IH]; intros out text; simpl.
  - by intros [= <- _].
  - destruct (item out x) as [[o1 s]| |] eqn:Hx; simpl; try done.
    apply Hitem in Hx as ->. apply IH.
Qed.

Lemma Transition_str_out
    (str_ : list string → value → res (list string * string))
    (h : heap) (out out' : list string) (t : Transition) (v : value) :
  (∀ o x o' s, str_ o x = Ret (o', s) → o' = o) →
  Transition_str str_ h out t = Ret (out', v) →
  out' = out ∧ ∃ s, v = VStr s.
Proof.
  intros Hstr. unfold Transition_str.
  destruct (getattr_name h (current_state t)) as [cn| |]; simpl; try done.
  destruct (str_ out cn) as [[o1 a]| |] eqn:H1; simpl; try done.
  destruct (str_ o1 (event t)) as [[o2 b]| |] eqn:H2; simpl; try done.
  destruct (getattr_name h (next_state t)) as [nn| |]; simpl; try done.
  destruct (str_ o2 nn) as [[o3 c]| |] eqn:H3; simpl; try done.
  apply Hstr in H1 as ->. apply Hstr in H2 as ->. apply Hstr in H3 as ->.
  intros [= <- <-]. eauto.
Qed.

(** What [str] returns it returns without having printed. *)
Lemma py_str_out (prog : program) (order : set_order) (fuel : nat)
    (h : heap) (out out' : list string) (v : value) (s : string) :
  py_str prog order fuel h out v = Ret (out', s) → out' = out.
Proof.
  revert out out' v s.
  induction fuel as [|f IH]; intros out out' v s; [done|]. simpl.
  destruct v as [| | |r|]; try by intros [= <- _].
  destruct (h !! r) as [[c attrs|name start ts|t]|]; simpl; try done.
  - unfold State_str.
    destruct (getattr_name h (VRef r)) as [n| |]; simpl; try done.
    destruct n; try done. by intros [= <- _].
  - destruct (FiniteStateMachine_str _ _ h out r) as [[o1 v]| |] eqn:Hs;
      simpl; try done.
    by apply FiniteStateMachine_str_None in Hs as ->.
  - destruct (Transition_str (py_str prog order f h) h out t)
      as [[o1 v]| |] eqn:Hs; simpl; try done.
    apply Transition_str_out in Hs as [-> [s0 ->]];
      [|exact (λ o x o' s', IH o o' x s')].
    by intros [= <- _].
Qed.

(** X10: the string of a transition whose states have string names and
    whose event is a string is [(name, event) -> name]; nothing is printed.
    The states can be machines: only their names are read. *)
Theorem Transition_str_format
    (prog : program) (order : set_order) (fuel : nat) (h : heap)
    (out : list string) (tr : ref) (t : Transition) (a b c : string) :
  h !! tr = Some (OTransition t) →
  getattr_name h (current_state t) = Ret (VStr a) →
  event t = VStr b →
  getattr_name h (next_state t) = Ret (VStr c) →
  py_str prog order (S (S fuel)) h out (VRef tr) =
  Ret (out, "(" +:+ a +:+ ", " +:+ b +:+ ") -> " +:+ c).
Proof.
  intros Htr Ha Hb Hc.
  change (py_str prog order (S (S fuel)) h out (VRef tr)) with
    ('(out', result) ←
       match h !! tr with
       | Some (OState _ _) => State_str h out tr
       | Some (OFsm _ _ _) =>
           FiniteStateMachine_str (py_str prog order (S fuel) h)
             (State_events prog order (S fuel) h (VRef tr)) h out tr
       | Some (OTransition t) =>
           Transition_str (py_str prog order (S fuel) h) h out t
       | None => Raise (AttributeError "__str__")
       end;
     match result with
     | VStr s => Ret (out', s)
     | _ => Raise (TypeError "__str__ returned non-string")
     end).
  rewrite Htr. unfold Transition_str. rewrite Ha, Hb, Hc. reflexivity.
Qed.

(** X11: [__str__] of a machine, when it returns, has printed one text and
    returns [None]; so [str] of a machine never has a result, and neither
    has [__str__] of a machine whose start state is a machine. *)
Theorem FiniteStateMachine_str_never_string
    (prog : program) (order : set_order) (h : heap) (self : ref)
    (name start : value) (ts : list Transition) :
  h !! self = Some (OFsm name start ts) →
  (∀ fuel out out' v,
     FiniteStateMachine___str__ prog order fuel h out self = Ret (out', v) →
     v = VNone ∧ ∃ text, out' = out ++ [text]) ∧
  (∀ fuel out x, py_str prog order fuel h out (VRef self) ≠ Ret x) ∧
  ((∃ r n s l, start = VRef r ∧ h !! r = Some (OFsm n s l)) →
   ∀ fuel out x,
     FiniteStateMachine___str__ prog order fuel h out self ≠ Ret x).
Proof.
  intros Hself. split_and!.
  - intros fuel out out' v.
    unfold FiniteStateMachine___str__, FiniteStateMachine_str.
    rewrite Hself.
    destruct (py_str prog order fuel h out name) as [[o1 n]| |] eqn:H1;
      simpl; try done.
    destruct (py_str prog order fuel h o1 start) as [[o2 s]| |] eqn:H2;
      simpl; try done.
    destruct (render_lines _ o2 _ ts) as [[o3 text]| |] eqn:H3;
      simpl; try done.
    destruct (State_events prog order fuel h (VRef self)) as [evs| |];
      simpl; try done.
    destruct (render_lines _ o3 _ evs) as [[o4 text']| |] eqn:H4;
      simpl; try done.
    intros [= <- <-]. split; [done|].
    apply py_str_out in H1 as ->. apply py_str_out in H2 as ->.
    apply render_lines_out in H4 as ->;
      [|intros o x o' s0; apply py_str_out].
    apply render_lines_out in H3 as ->; [by eauto|].
    intros o x o' s0.
    destruct (Transition_str (py_str prog order fuel h) h o x)
      as [[o5 v]| |] eqn:Ht; simpl; try done.
    apply Transition_str_out in Ht as [-> [s1 ->]];
      [|intros ? ? ? ?; apply py_str_out].
    by intros [= <- _].
  - intros fuel out x. by eapply py_str_machine.
  - intros (r & n & s & l & -> & Hr) fuel out x.
    unfold FiniteStateMachine___str__, FiniteStateMachine_str.
    rewrite Hself.
    destruct (py_str prog order fuel h out name) as [[o1 n1]| |];
      simpl; try done.
    destruct (py_str prog order fuel h o1 (VRef r)) as [[o2 s2]| |] eqn:H2;
      simpl; try done.
    by eapply py_str_machine in H2.
Qed.

(** ** The counting machine for every counter and limit *)

Section Counting.

Import TestDoubles.

Variables c v l : Z.

Lemma counting_heap_at_test : counting_heap = counting_heap_at 0 0 10.
Proof. vm_compute; reflexivity. Qed.







End Counting.



(** ** Applying a constructed transition; cycles *)

(** X13: a transition that [__init__] accepted can always be applied:
    [apply] calls the update function, if there is one, with the current
    state, the event and the next state, in this order, and returns the next
    state whatever the function returns; it fails only as the function
    fails. *)
Theorem Transition_apply_constructed
    (prog : program) (h h' : heap) (cs ev ns upd : value) (tr : ref)
    (t : Transition) (h2 : heap) :
  Transition_init h cs ev ns upd = Ret (h', VRef tr) →
  h' !! tr = Some (OTransition t) →
  (upd = VNone ∧ Transition_apply prog t h2 = Ret (h2, ns)) ∨
  (∃ f, upd = VFun f ∧
        Transition_apply prog t h2 =
        match fn_call prog f h2 [cs; ev; ns] with
        | Ret h3 => Ret (h3, ns)
        | Raise e => Raise e
        | OutOfFuel => OutOfFuel
        end).
Proof.
  intros Hinit Ht.
  apply Transition_init_Ret in Hinit
    as (r0 & [= <-] & _ & -> & _ & _ & [-> | Hc]).
  - rewrite lookup_insert_eq in Ht. injection Ht as <-. by left.
  - rewrite lookup_insert_eq in Ht. injection Ht as <-.
    destruct upd as [| | | |f]; try done. right. exists f. split; [done|].
    unfold Transition_apply. simpl. by destruct (fn_call prog f h2 _).
Qed.

(** X14: [run] has no bound of its own.  When, from the start state on,
    every event that a state returns has a transition, [run] never
    returns. *)
Theorem FiniteStateMachine_run_livelock
    (prog : program) (Inv : heap → value → Prop) (h : heap) (self : ref)
    (name start : value) (ts : list Transition) :
  h !! self = Some (OFsm name start ts) →
  Inv h start →
  (∀ hk cur f h1 ev,
     Inv hk cur → State_run prog f hk cur = Ret (h1, ev) →
     ∃ t, FiniteStateMachine_transition h1 self cur ev = Ret (Some t) ∧
          ∀ h2 nxt, Transition_apply prog t h1 = Ret (h2, nxt) → Inv h2 nxt) →
  ∀ fuel x, FiniteStateMachine_run prog fuel h self ≠ Ret x.
Proof.
  intros Hself Hstart Hstep fuel x. unfold FiniteStateMachine_run.
  destruct fuel as [|f]; [done|].
  rewrite (State_run_machine prog f h self name start ts Hself).
  clear Hself. generalize f at 2. intros n. revert h start Hstart.
  induction n as [|n IH]; intros hk cur Hinv; [done|].
  rewrite run_loop_S.
  destruct (State_run prog f hk cur) as [[h1 ev]| |] eqn:Hr; [|done..].
  destruct (Hstep _ _ _ _ _ Hinv Hr) as (t & Ht & Hnext).
  simpl. rewrite Ht. simpl.
  destruct (Transition_apply prog t h1) as [[h2 nxt]| |] eqn:Ha; [|done..].
  simpl. apply (IH h2 nxt). by apply Hnext.
Qed.

(** ** Instances of the further properties *)

Lemma TestDoubles_setattr_classes (h h' : heap) (v : value) (a : string)
    (x : value) :
  TestDoubles.setattr h v a x = Ret h' → keeps_classes h h'.
Proof.
  unfold TestDoubles.setattr. destruct v as [| | |r|]; try done.
  destruct (h !! r) as [[c attrs| |]|] eqn:Hr; try done.
  intros [= <-] r' o Hr'. destruct (decide (r' = r)) as [->|Hne].
  - rewrite Hr in Hr'. injection Hr' as <-. rewrite lookup_insert_eq. eauto.
  - rewrite lookup_insert_ne by done. rewrite Hr'. destruct o; eauto.
Qed.

Lemma TestDoubles_run_classes (c : string) (h h' : heap) (r : ref)
    (e : value) :
  TestDoubles.run c h r = Ret (h', e) → keeps_classes h h'.
Proof.
  unfold TestDoubles.run. repeat case_decide; try done.
  - intros [= <- _]. apply keeps_classes_refl.
  - intros [= <- _]. apply keeps_classes_refl.
  - intros Hret. apply res_bind_Ret in Hret as (v & _ & Hret).
    destruct v as [|n| | |]; try done.
    apply res_bind_Ret in Hret as (h1 & Hset & [= <- _]).
    by eapply TestDoubles_setattr_classes.
  - intros Hret. apply res_bind_Ret in Hret as (v & _ & Hret).
    apply res_bind_Ret in Hret as (l & _ & Hret).
    destruct v as [|n| | |], l as [|m| | |]; try done.
    case_bool_decide; injection Hret as <- _; apply keeps_classes_refl.
Qed.

Lemma TestDoubles_call_classes (f : string) (h h' : heap)
    (args : list value) :
  TestDoubles.call f h args = Ret h' → keeps_classes h h'.
Proof.
  unfold TestDoubles.call. case_decide; [|done].
  destruct args as [|a [|b [|c [|]]]]; try done.
  intros Hret. apply res_bind_Ret in Hret as (v & _ & Hret).
  by eapply TestDoubles_setattr_classes.
Qed.

(** The test states return events that they declare. *)
Lemma TestDoubles_run_declared (c : string) (h h' : heap) (r : ref)
    (e : value) :
  TestDoubles.run c h r = Ret (h', e) → e ∈ TestDoubles.events c h r.
Proof.
  unfold TestDoubles.run, TestDoubles.events.
  repeat case_decide; try done.
  - intros [= _ <-]. set_solver.
  - intros [= _ <-]. set_solver.
  - intros Hret. apply res_bind_Ret in Hret as (v & _ & Hret).
    destruct v as [|n| | |]; try done.
    apply res_bind_Ret in Hret as (h1 & Hset & [= _ <-]). set_solver.
  - intros Hret. apply res_bind_Ret in Hret as (v & _ & Hret).
    apply res_bind_Ret in Hret as (l & _ & Hret).
    destruct v as [|n| | |], l as [|m| | |]; try done.
    case_bool_decide; injection Hret as _ <-; set_solver.
Qed.

Lemma FiniteStateMachine_run_propagates_witness :
  TestDoubles.unlimited_heap !! 3%positive =
    Some (OFsm (VStr "Counting to 10") (VRef 1%positive)
            TestDoubles.counting_transitions) ∧
  rtc (turn TestDoubles.prog 3%positive)
    (TestDoubles.unlimited_heap, VRef 1%positive)
    (TestDoubles.unlimited_heap_turned, VRef 2%positive) ∧
  State_run TestDoubles.prog 1 TestDoubles.unlimited_heap_turned
    (VRef 2%positive) = Raise (TypeError ">") ∧
  ∃ fuel, FiniteStateMachine_run TestDoubles.prog fuel
            TestDoubles.unlimited_heap 3%positive = Raise (TypeError ">").
Proof.
  assert (rtc (turn TestDoubles.prog 3%positive)
            (TestDoubles.unlimited_heap, VRef 1%positive)
            (TestDoubles.unlimited_heap_turned, VRef 2%positive)) as Hturn.
  { apply rtc_once.
    exists 1, TestDoubles.unlimited_heap_counted, (VStr "counted"),
      (mkTransition (VRef 1%positive) (VStr "counted") (VRef 2%positive)
         (VFun "update")).
    split_and!; vm_compute; reflexivity. }
  split_and!; [vm_compute; reflexivity | exact Hturn
              | vm_compute; reflexivity |].
  apply (FiniteStateMachine_run_propagates TestDoubles.prog
           TestDoubles.unlimited_heap 3%positive (VStr "Counting to 10")
           (VRef 1%positive) TestDoubles.counting_transitions
           TestDoubles.unlimited_heap_turned (VRef 2%positive)
           (TypeError ">")).
  - vm_compute; reflexivity.
  - exact Hturn.
  - left. exists 1. vm_compute; reflexivity.
Defined.

Lemma FiniteStateMachine_run_in_events_witness :
  FiniteStateMachine_run TestDoubles.prog 23 TestDoubles.counting_heap
    3%positive = Ret (TestDoubles.counted_heap, VStr "over") ∧
  FiniteStateMachine_events TestDoubles.prog insertion_order 2
    TestDoubles.counting_heap 3%positive = Ret [VStr "over"] ∧
  VStr "over" ∈ [VStr "over"].
Proof.
  split_and!; [vm_compute; reflexivity..|].
  apply (FiniteStateMachine_run_in_events TestDoubles.prog insertion_order
           23 2 TestDoubles.counting_heap 3%positive TestDoubles.counted_heap
           (VStr "over") [VStr "over"]).
  - intros c h0 r h1 e. apply TestDoubles_run_classes.
  - intros f h0 args h1. apply TestDoubles_call_classes.
  - intros c h0 r h1 e. apply TestDoubles_run_declared.
  - reflexivity.
  - vm_compute; reflexivity.
  - vm_compute; reflexivity.
Defined.

Lemma FiniteStateMachine_run_no_transitions_witness :
  TestDoubles.start_heap !! 2%positive =
    Some (OFsm (VStr "Start machine") (VRef 1%positive) []) ∧
  FiniteStateMachine_run TestDoubles.prog 2 TestDoubles.start_heap 2%positive
    = State_run TestDoubles.prog 1 TestDoubles.start_heap (VRef 1%positive) ∧
  State_run TestDoubles.prog 1 TestDoubles.start_heap (VRef 1%positive)
    = Ret (TestDoubles.start_heap, VStr "started").
Proof.
  split_and!; [vm_compute; reflexivity| |vm_compute; reflexivity].
  apply (FiniteStateMachine_run_no_transitions TestDoubles.prog 0
           TestDoubles.start_heap 2%positive (VStr "Start machine")
           (VRef 1%positive)).
  - intros c h0 r h1 e Hc r' o Hr Ho.
    exact (TestDoubles_run_keeps c h0 h1 r e r' o Hr Ho Hc).
  - intros f h0 args h1 Hc r' o Hr Ho.
    exact (TestDoubles_call_keeps f h0 h1 args r' o Hr Ho Hc).
  - vm_compute; reflexivity.
Defined.

Lemma FiniteStateMachine_self_nested_witness :
  TestDoubles.self_heap !! 2%positive =
    Some (OFsm (VStr "Self") (VRef 1%positive)
            [mkTransition (VRef 1%positive) (VStr "started")
               (VRef 2%positive) VNone]) ∧
  ∀ fuel evs,
    FiniteStateMachine_events TestDoubles.prog insertion_order fuel
      TestDoubles.self_heap 2%positive ≠ Ret evs.
Proof.
  split; [vm_compute; reflexivity|].
  apply (proj1 (FiniteStateMachine_self_nested TestDoubles.prog
                  insertion_order TestDoubles.self_heap 2%positive
                  (VStr "Self") (VRef 1%positive)
                  [mkTransition (VRef 1%positive) (VStr "started")
                     (VRef 2%positive) VNone] eq_refl)).
  right. eexists. split; [apply list_elem_of_singleton; reflexivity|].
  by right.
Defined.

Lemma FiniteStateMachine_add_raises_witness :
  TestDoubles.counting_heap !! 3%positive =
    Some (OFsm (VStr "Counting to 10") (VRef 1%positive)
            TestDoubles.counting_transitions) ∧
  isinstance_Transition TestDoubles.counting_heap (VRef 1%positive) = false ∧
  FiniteStateMachine_add TestDoubles.counting_heap 3%positive
    (VRef 1%positive) = Raise (TypeError "transition").
Proof.
  split_and!; [vm_compute; reflexivity..|].
  destruct (FiniteStateMachine_add_raises TestDoubles.counting_heap
              3%positive (VStr "Counting to 10") (VRef 1%positive)
              TestDoubles.counting_transitions (VRef 1%positive) eq_refl)
    as ([_ Hraise] & Hexn & _).
  destruct (Hraise eq_refl) as [e He]. rewrite He. f_equal. by apply Hexn.
Defined.

Lemma FiniteStateMachine_add_lookup_witness :
  TestDoubles.closing_heap !! 3%positive =
    Some (OFsm (VStr "Counting to 10") (VRef 1%positive)
            TestDoubles.counting_transitions) ∧
  TestDoubles.closing_heap !! 6%positive =
    Some (OTransition (mkTransition (VRef 2%positive) (VStr "over")
                         (VRef 1%positive) VNone)) ∧
  FiniteStateMachine_transition TestDoubles.closing_heap 3%positive
    (VRef 2%positive) (VStr "over") = Ret None ∧
  ∃ h', FiniteStateMachine_add TestDoubles.closing_heap 3%positive
          (VRef 6%positive) = Ret h' ∧
        ∃ t0, FiniteStateMachine_transition h' 3%positive (VRef 2%positive)
                (VStr "over") = Ret (Some t0).
Proof.
  split_and!; [vm_compute; reflexivity..|].
  destruct (FiniteStateMachine_add_lookup TestDoubles.closing_heap 3%positive
              (VStr "Counting to 10") (VRef 1%positive)
              TestDoubles.counting_transitions 6%positive
              (mkTransition (VRef 2%positive) (VStr "over") (VRef 1%positive)
                 VNone) eq_refl eq_refl)
    as (h' & Hadd & _ & _ & Hpair & _).
  exists h'. split; [exact Hadd | exact Hpair].
Defined.

Lemma FiniteStateMachine_add_events_witness :
  FiniteStateMachine_events TestDoubles.prog insertion_order 2
    TestDoubles.closing_heap 3%positive = Ret [VStr "over"] ∧
  ∃ h', FiniteStateMachine_add TestDoubles.closing_heap 3%positive
          (VRef 6%positive) = Ret h' ∧
        FiniteStateMachine_events TestDoubles.prog insertion_order 2 h'
          3%positive = Ret [] ∧
        ∃ evs', FiniteStateMachine_events TestDoubles.prog insertion_order 2
                  h' 3%positive = Ret evs' ∧ evs' ⊆+ [VStr "over"].
Proof.
  split; [vm_compute; reflexivity|].
  eexists. split_and!; [vm_compute; reflexivity..|].
  apply (FiniteStateMachine_add_events TestDoubles.prog insertion_order 2
           TestDoubles.closing_heap 3%positive (VStr "Counting to 10")
           (VRef 1%positive) TestDoubles.counting_transitions 6%positive
           (mkTransition (VRef 2%positive) (VStr "over") (VRef 1%positive)
              VNone)).
  - vm_compute; reflexivity.
  - vm_compute; reflexivity.
  - vm_compute. apply list_elem_of_In. simpl. auto.
  - vm_compute. apply list_elem_of_In. simpl. auto.
  - vm_compute; reflexivity.
  - reflexivity.
  - vm_compute; reflexivity.
Defined.

Lemma FiniteStateMachine_events_after_run_witness :
  FiniteStateMachine_run TestDoubles.prog 23 TestDoubles.counting_heap
    3%positive = Ret (TestDoubles.counted_heap, VStr "over") ∧
  FiniteStateMachine_events TestDoubles.prog insertion_order 2
    TestDoubles.counting_heap 3%positive = Ret [VStr "over"] ∧
  FiniteStateMachine_events TestDoubles.prog insertion_order 2
    TestDoubles.counted_heap 3%positive = Ret [VStr "over"].
Proof.
  split_and!; [vm_compute; reflexivity..|].
  apply (FiniteStateMachine_events_after_run TestDoubles.prog insertion_order
           23 2 TestDoubles.counting_heap 3%positive TestDoubles.counted_heap
           (VStr "over") [VStr "over"]).
  - intros c h0 r h1 e. apply TestDoubles_run_classes.
  - intros f h0 args h1. apply TestDoubles_call_classes.
  - reflexivity.
  - vm_compute; reflexivity.
  - vm_compute; reflexivity.
Defined.

Lemma Transition_str_format_witness :
  TestDoubles.counting_heap !! 4%positive =
    Some (OTransition (mkTransition (VRef 1%positive) (VStr "counted")
                         (VRef 2%positive) (VFun "update"))) ∧
  getattr_name TestDoubles.counting_heap (VRef 1%positive)
    = Ret (VStr "Counting") ∧
  getattr_name TestDoubles.counting_heap (VRef 2%positive)
    = Ret (VStr "Limiting") ∧
  py_str TestDoubles.prog insertion_order 2 TestDoubles.counting_heap []
    (VRef 4%positive) = Ret ([], "(Counting, counted) -> Limiting").
Proof.
  split_and!; [vm_compute; reflexivity..|].
  apply (Transition_str_format TestDoubles.prog insertion_order 0
           TestDoubles.counting_heap [] 4%positive
           (mkTransition (VRef 1%positive) (VStr "counted") (VRef 2%positive)
              (VFun "update")) "Counting" "counted" "Limiting");
    vm_compute; reflexivity.
Defined.

Lemma FiniteStateMachine_str_never_string_witness :
  TestDoubles.start_heap !! 2%positive =
    Some (OFsm (VStr "Start machine") (VRef 1%positive) []) ∧
  ∀ fuel out x,
    py_str TestDoubles.prog insertion_order fuel TestDoubles.start_heap out
      (VRef 2%positive) ≠ Ret x.
Proof.
  split; [vm_compute; reflexivity|].
  apply (FiniteStateMachine_str_never_string TestDoubles.prog insertion_order
           TestDoubles.start_heap 2%positive (VStr "Start machine")
           (VRef 1%positive) []).
  vm_compute; reflexivity.
Defined.

Lemma Transition_apply_constructed_witness :
  Transition_init TestDoubles.match_heap (VRef 1%positive) (VStr "counted")
    (VRef 2%positive) (VFun "update") =
    Ret (<[4%positive := OTransition
             (mkTransition (VRef 1%positive) (VStr "counted")
                (VRef 2%positive) (VFun "update"))]> TestDoubles.match_heap,
         VRef 4%positive) ∧
  ((VFun "update" = VNone ∧
    Transition_apply TestDoubles.prog
      (mkTransition (VRef 1%positive) (VStr "counted") (VRef 2%positive)
         (VFun "update")) TestDoubles.counting_heap =
    Ret (TestDoubles.counting_heap, VRef 2%positive)) ∨
   (∃ f, VFun "update" = VFun f ∧
         Transition_apply TestDoubles.prog
           (mkTransition (VRef 1%positive) (VStr "counted") (VRef 2%positive)
              (VFun "update")) TestDoubles.counting_heap =
         match fn_call TestDoubles.prog f TestDoubles.counting_heap
                 [VRef 1%positive; VStr "counted"; VRef 2%positive] with
         | Ret h3 => Ret (h3, VRef 2%positive)
         | Raise e => Raise e
         | OutOfFuel => OutOfFuel
         end)).
Proof.
  split; [vm_compute; reflexivity|].
  apply (Transition_apply_constructed TestDoubles.prog TestDoubles.match_heap
           (<[4%positive := OTransition
                (mkTransition (VRef 1%positive) (VStr "counted")
                   (VRef 2%positive) (VFun "update"))]> TestDoubles.match_heap)
           (VRef 1%positive) (VStr "counted") (VRef 2%positive)
           (VFun "update") 4%positive);
    vm_compute; reflexivity.
Defined.

Lemma FiniteStateMachine_run_livelock_witness :
  TestDoubles.looping_heap !! 4%positive =
    Some (OFsm (VStr "Loop") (VRef 1%positive)
            [mkTransition (VRef 1%positive) (VStr "started")
               (VRef 1%positive) VNone]) ∧
  ∀ fuel x,
    FiniteStateMachine_run TestDoubles.prog fuel TestDoubles.looping_heap
      4%positive ≠ Ret x.
Proof.
  split; [vm_compute; reflexivity|].
  apply (FiniteStateMachine_run_livelock TestDoubles.prog
           (λ hk cur, hk = TestDoubles.looping_heap ∧ cur = VRef 1%positive)
           TestDoubles.looping_heap 4%positive (VStr "Loop")
           (VRef 1%positive)
           [mkTransition (VRef 1%positive) (VStr "started") (VRef 1%positive)
              VNone]).
  - vm_compute; reflexivity.
  - by split.
  - intros hk cur f h1 ev [-> ->] Hr. destruct f as [|f]; [done|].
    assert (State_run TestDoubles.prog (S f) TestDoubles.looping_heap
              (VRef 1%positive)
            = Ret (TestDoubles.looping_heap, VStr "started")) as Hs
      by (vm_compute; reflexivity).
    rewrite Hs in Hr. injection Hr as <- <-.
    eexists. split; [vm_compute; reflexivity|].
    intros h2 nxt [= <- <-]. by split.
Defined.
